(** * Clinic data scraper: a shallow embedding of [scraper.py]

    The development follows the source file top to bottom:
    - text (Python [str]) is [string]; a character is a code point below 256,
      classified the way Python's [re] and [str] classify it;
    - the regular expressions of the program are terms of a small regex
      syntax, run by a backtracking matcher that returns its successes in
      the priority order of Python's [re] (leftmost start, first alternative,
      longest repetition first);
    - a parsed page (BeautifulSoup) is a tree of text and element nodes;
    - the network, the console, the clock and the file system are an explicit
      state threaded through a state-and-exception monad. *)

From stdpp Require Import gmap strings list.
From Stdlib Require Import Ascii NArith Lia.

Local Open Scope N_scope.

(** ** Characters *)

Definition code (c : ascii) : N := N_of_ascii c.

Definition in_range (lo hi : N) (c : ascii) : bool :=
  (lo <=? code c) && (code c <=? hi).

(** [\d]: decimal digits. Below 256 these are the ASCII digits only. *)
Definition is_digit (c : ascii) : bool := in_range 48 57 c.

(** [\s] and [str.strip()]: Unicode white space below 256. *)
Definition is_space (c : ascii) : bool :=
  in_range 9 13 c || in_range 28 32 c || (code c =? 133) || (code c =? 160).

(** [\w]: alphanumerics and the underscore, below 256. *)
Definition is_word (c : ascii) : bool :=
  is_digit c || in_range 65 90 c || in_range 97 122 c || (code c =? 95)
  || (code c =? 170) || in_range 178 179 c || (code c =? 181)
  || in_range 185 186 c || in_range 188 190 c
  || in_range 192 214 c || in_range 216 246 c || in_range 248 255 c.

(** Lower-casing of the ASCII letters, for [re.IGNORECASE] on the ASCII
    letters of the patterns. *)
Definition lower (c : ascii) : ascii :=
  if in_range 65 90 c then ascii_of_N (code c + 32) else c.

Definition is_char (a : ascii) (c : ascii) : bool := Ascii.eqb a c.
Definition is_char_ci (a : ascii) (c : ascii) : bool := Ascii.eqb (lower a) (lower c).

Local Close Scope N_scope.

(** ** Strings *)

Abbreviation slen := String.length.

(** [needle in hay] *)
Fixpoint contains (needle hay : string) : bool :=
  String.prefix needle hay ||
  match hay with
  | EmptyString => false
  | String _ hay' => contains needle hay'
  end.

(** [sep.join(parts)] *)
Fixpoint join (sep : string) (parts : list string) : string :=
  match parts with
  | [] => ""
  | [x] => x
  | x :: rest => x +:+ sep +:+ join sep rest
  end.

(** [s.lstrip(chars)] for a set of characters given as a predicate. *)
Fixpoint lstrip_by (p : ascii -> bool) (s : string) : string :=
  match s with
  | String c s' => if p c then lstrip_by p s' else s
  | EmptyString => EmptyString
  end.

(** [s.rstrip()] for a set of characters given as a predicate. *)
Fixpoint rstrip_by (p : ascii -> bool) (s : string) : string :=
  match s with
  | String c s' =>
      match rstrip_by p s' with
      | EmptyString => if p c then EmptyString else String c EmptyString
      | t => String c t
      end
  | EmptyString => EmptyString
  end.

(** [s.strip()] *)
Definition strip (s : string) : string := rstrip_by is_space (lstrip_by is_space s).

(** [s.replace(old, new)] for a non-empty [old]: occurrences are taken left
    to right and do not overlap. [skip] counts the characters of an
    occurrence that are still to be dropped. *)
Fixpoint replace_go (old new : string) (skip : nat) (s : string) : string :=
  match s with
  | EmptyString => EmptyString
  | String c s' =>
      match skip with
      | S k => replace_go old new k s'
      | O =>
          if String.prefix old s
          then new +:+ replace_go old new (slen old - 1) s'
          else String c (replace_go old new 0 s')
      end
  end.

Definition replace (old new s : string) : string := replace_go old new 0 s.

(** [s.split(sep)] for a non-empty [sep]; [cur] is the piece being read, in
    reverse. *)
Fixpoint split_go (sep : string) (skip : nat) (cur : string) (s : string) : list string :=
  match s with
  | EmptyString => [String.rev cur]
  | String c s' =>
      match skip with
      | S k => split_go sep k cur s'
      | O =>
          if String.prefix sep s
          then String.rev cur :: split_go sep (slen sep - 1) EmptyString s'
          else split_go sep 0 (String c cur) s'
      end
  end.

Definition split (sep s : string) : list string := split_go sep 0 EmptyString s.

(** [s[:n]] *)
Definition take_str (n : nat) (s : string) : string := String.substring 0 n s.

(** ** Exceptions and fallible results *)

(** A raised Python exception: its class name and [str(e)]. *)
Inductive exn : Type := Exn (kind msg : string).

Definition exn_msg (e : exn) : string := let 'Exn _ m := e in m.

Inductive outcome (A : Type) : Type :=
| Val (a : A)
| Raise (e : exn).
Arguments Val {A} a.
Arguments Raise {A} e.

Definition obind {A B} (x : outcome A) (f : A -> outcome B) : outcome B :=
  match x with
  | Val a => f a
  | Raise e => Raise e
  end.

(** ** Regular expressions

    The syntax covers what the patterns of the program use: character
    classes, sequence, alternation, greedy repetition of a class with a lower
    bound ([*], [+], [{7,}]) and numbered capturing groups. *)

Inductive regex : Type :=
| Eps
| Cls (p : ascii -> bool)
| Seq (r1 r2 : regex)
| Alt (r1 r2 : regex)
| Rep (p : ascii -> bool) (lo : nat)
| Grp (i : nat) (r : regex).

(** One way of matching at the start of a string: the text consumed, the
    groups that took part, and what is left of the string. *)
Record success : Type := Success {
  s_text : string;
  s_groups : list (nat * string);
  s_rest : string
}.

(** Greedy repetition [p{lo,}]: all the ways, longest first. *)
Fixpoint rep (p : ascii -> bool) (lo : nat) (s : string) : list (string * string) :=
  let stop := match lo with O => [(EmptyString, s)] | S _ => [] end in
  match s with
  | String c s' =>
      if p c
      then map (fun mt => (String c (fst mt), snd mt)) (rep p (pred lo) s') ++ stop
      else stop
  | EmptyString => stop
  end.

(** The backtracking matcher: every way [r] matches a prefix of [s], in the
    order in which a backtracking engine tries them. *)
Fixpoint run (r : regex) (s : string) : list success :=
  match r with
  | Eps => [Success EmptyString [] s]
  | Cls p =>
      match s with
      | String c s' => if p c then [Success (String c EmptyString) [] s'] else []
      | EmptyString => []
      end
  | Seq r1 r2 =>
      flat_map (fun x =>
        map (fun y => Success (s_text x +:+ s_text y) (s_groups x ++ s_groups y) (s_rest y))
            (run r2 (s_rest x)))
        (run r1 s)
  | Alt r1 r2 => run r1 s ++ run r2 s
  | Rep p lo => map (fun mt => Success (fst mt) [] (snd mt)) (rep p lo s)
  | Grp i r1 =>
      map (fun x => Success (s_text x) ((i, s_text x) :: s_groups x) (s_rest x)) (run r1 s)
  end.

(** Number of capturing groups of a pattern. *)
Fixpoint ngroups (r : regex) : nat :=
  match r with
  | Eps | Cls _ | Rep _ _ => 0
  | Seq r1 r2 | Alt r1 r2 => ngroups r1 + ngroups r2
  | Grp _ r1 => S (ngroups r1)
  end.

(** The first way of matching at the start of [s], if any. *)
Definition match_at (r : regex) (s : string) : option success := head (run r s).

(** A match object. *)
Record match_obj : Type := Match {
  m_start : nat;
  m_found : success;
  m_ngroups : nat
}.

(** [re.search]: the leftmost start position at which the pattern matches. *)
Fixpoint search_from (r : regex) (pos : nat) (s : string) : option match_obj :=
  match match_at r s with
  | Some x => Some (Match pos x (ngroups r))
  | None =>
      match s with
      | String _ s' => search_from r (S pos) s'
      | EmptyString => None
      end
  end.

Definition re_search (r : regex) (s : string) : option match_obj := search_from r 0 s.

Fixpoint assoc (i : nat) (l : list (nat * string)) : option string :=
  match l with
  | [] => None
  | (j, v) :: l' => if Nat.eqb i j then Some v else assoc i l'
  end.

(** [m.group(i)]: group 0 is the whole match; a group number the pattern
    does not have raises [IndexError]; a group that took no part is [None]. *)
Definition m_group (i : nat) (m : match_obj) : outcome (option string) :=
  match i with
  | O => Val (Some (s_text (m_found m)))
  | S _ =>
      if Nat.leb i (m_ngroups m)
      then Val (assoc i (s_groups (m_found m)))
      else Raise (Exn "IndexError" "no such group")
  end.

(** [re.sub(r, repl, s)] for a pattern that consumes at least one character
    wherever it matches, which holds of every pattern the program
    substitutes with; [skip] counts the characters of the last match that
    are still to be dropped. *)
Fixpoint sub_go (r : regex) (repl : success -> string) (skip : nat) (s : string) : string :=
  match s with
  | EmptyString => EmptyString
  | String c s' =>
      match skip with
      | S k => sub_go r repl k s'
      | O =>
          match match_at r s with
          | Some x =>
              match slen (s_text x) with
              | S k => repl x +:+ sub_go r repl k s'
              | O => String c (sub_go r repl 0 s')
              end
          | None => String c (sub_go r repl 0 s')
          end
      end
  end.

Definition re_sub (r : regex) (repl : success -> string) (s : string) : string :=
  sub_go r repl 0 s.

(** *** Pattern combinators *)

Definition cls_or (p q : ascii -> bool) (c : ascii) : bool := p c || q c.
Definition cls_not (p : ascii -> bool) (c : ascii) : bool := negb (p c).
Definition one_of (chars : string) (c : ascii) : bool :=
  existsb (Ascii.eqb c) (String.list_ascii_of_string chars).

Fixpoint seqs (rs : list regex) : regex :=
  match rs with
  | [] => Eps
  | [r] => r
  | r :: rs' => Seq r (seqs rs')
  end.

Fixpoint alts (rs : list regex) : regex :=
  match rs with
  | [] => Cls (fun _ => false)
  | [r] => r
  | r :: rs' => Alt r (alts rs')
  end.

(** A literal, and a literal under [re.IGNORECASE]. *)
Definition lit (s : string) : regex :=
  seqs (map (fun a => Cls (is_char a)) (String.list_ascii_of_string s)).
Definition lit_ci (s : string) : regex :=
  seqs (map (fun a => Cls (is_char_ci a)) (String.list_ascii_of_string s)).

(** [r?] *)
Definition opt (r : regex) : regex := Alt r Eps.
(** [p{n}] *)
Definition exactly (n : nat) (p : ascii -> bool) : regex := seqs (repeat (Cls p) n).

(** ** The patterns of the program *)

(** A pattern as the program holds it: the source text, which the program
    itself inspects, and the regular expression it denotes under the flags
    it is searched with. *)
Record pattern : Type := Pattern {
  p_source : string;
  p_regex : regex
}.

(** Character sets of the patterns. *)
Definition phone_chars : ascii -> bool :=            (* [\d\s\(\)\-\+] *)
  cls_or is_digit (cls_or is_space (one_of "()-+")).
Definition landline_chars : ascii -> bool :=         (* [\d\s\(\)\-] *)
  cls_or is_digit (cls_or is_space (one_of "()-")).
Definition email_chars : ascii -> bool :=            (* [\w\.-] *)
  cls_or is_word (one_of ".-").
Definition unit_chars : ascii -> bool :=             (* [\s\d\w\-] *)
  cls_or is_space (cls_or is_digit (cls_or is_word (one_of "-"))).
Definition street_chars : ascii -> bool :=           (* [\w\s\.] *)
  cls_or is_word (cls_or is_space (one_of ".")).
Definition number_chars : ascii -> bool :=           (* [\s\w\-] *)
  cls_or is_space (cls_or is_word (one_of "-")).
Definition suburb_chars : ascii -> bool :=           (* [\w\s] *)
  cls_or is_word is_space.

(** [Call\s+([\d\s\(\)\-\+]+)], searched with [re.IGNORECASE]. *)
Definition phone_pattern_1 : pattern :=
  Pattern "Call\s+([\d\s\(\)\-\+]+)"
    (seqs [lit_ci "Call"; Rep is_space 1; Grp 1 (Rep phone_chars 1)]).

(** [[\(\s]?0[2-9][\d\s\(\)\-]{7,}], searched with [re.IGNORECASE]. *)
Definition phone_pattern_2 : pattern :=
  Pattern "[\(\s]?0[2-9][\d\s\(\)\-]{7,}"
    (seqs [opt (Cls (cls_or (one_of "(") is_space)); Cls (is_char "0");
           Cls (in_range 50 57); Rep landline_chars 7]).

Definition phone_patterns : list pattern := [phone_pattern_1; phone_pattern_2].

(** [[^\d\s\(\)\-\+]] *)
Definition phone_junk : regex := Cls (cls_not phone_chars).

(** [[\w\.-]+@[\w\.-]+\.\w+] *)
Definition email_regex : regex :=
  seqs [Rep email_chars 1; Cls (is_char "@"); Rep email_chars 1;
        Cls (is_char "."); Rep is_word 1].

(** [(?:St|Street|Rd|...|Boulevard)] under [re.IGNORECASE] *)
Definition street_type : regex :=
  alts (map lit_ci
    ["St"; "Street"; "Rd"; "Road"; "Ave"; "Avenue"; "Dr"; "Drive"; "Lane";
     "Ln"; "Crescent"; "Cres"; "Court"; "Ct"; "Pl"; "Place"; "Bvd";
     "Boulevard"]).

(** [(?:QLD|NSW|VIC|WA|SA|NT|TAS|ACT)] under [re.IGNORECASE] *)
Definition state_code : regex :=
  alts (map lit_ci ["QLD"; "NSW"; "VIC"; "WA"; "SA"; "NT"; "TAS"; "ACT"]).

(** The first address pattern: a unit, suite or lot token, a comma, then
    street number, street, street type, suburb, state and postcode. *)
Definition address_regex_1 : regex :=
  Grp 1 (seqs
    [alts (map lit_ci ["Unit"; "Suite"; "No"; "Lot"]); Rep unit_chars 0;
     Cls (is_char ","); Rep is_space 0; Rep is_digit 1; Rep street_chars 1;
     street_type; Rep is_space 1; Rep suburb_chars 1; state_code;
     Rep is_space 1; exactly 4 is_digit]).

(** The second address pattern: street number, street, street type,
    suburb, state and postcode. *)
Definition address_regex_2 : regex :=
  Grp 1 (seqs
    [Rep is_digit 1; Rep number_chars 0; street_type; Rep suburb_chars 1;
     state_code; Rep is_space 1; exactly 4 is_digit]).

Definition address_patterns : list regex := [address_regex_1; address_regex_2].

(** [\s+] *)
Definition whitespace_run : regex := Rep is_space 1.

(** [\[([^\]]+)\]\([^\)]+\)]: a markdown link. *)
Definition markdown_link : regex :=
  seqs [Cls (is_char "["); Grp 1 (Rep (cls_not (is_char "]")) 1);
        Cls (is_char "]"); Cls (is_char "("); Rep (cls_not (is_char ")")) 1;
        Cls (is_char ")")].

(** [/our-clinics/([^/]+)/] *)
Definition slug_regex : regex :=
  seqs [lit "/our-clinics/"; Grp 1 (Rep (cls_not (is_char "/")) 1);
        Cls (is_char "/")].

(** The text of group [i] of a success; the empty string if it took no part. *)
Definition group_text (i : nat) (x : success) : string :=
  default EmptyString (assoc i (s_groups x)).

(** ** Parsed pages

    What [BeautifulSoup(content, 'html.parser')] builds: a tree of strings
    and tags. [Text] is a string that [get_text] yields; [Hidden] is a string
    it passes over (a comment, the body of a script or style element). *)

#[warnings="-register-all"]
Inductive node : Type :=
| Text (s : string)
| Hidden (s : string)
| Elem (name : string) (attrs : gmap string string) (children : list node).

Definition concat_all (l : list string) : string := foldr String.append EmptyString l.

(** Python's truth value of a string. *)
Definition truthy (s : string) : bool := negb (String.eqb s EmptyString).

(** The strings below a node, in document order. *)
Fixpoint strings (n : node) : list string :=
  match n with
  | Text s => [s]
  | Hidden _ => []
  | Elem _ _ cs => flat_map strings cs
  end.

(** [tag.get_text()] *)
Definition get_text (n : node) : string := concat_all (strings n).

(** [tag.get_text(strip=True)]: every string stripped, the empty ones left out. *)
Definition get_text_strip (n : node) : string :=
  concat_all (List.filter truthy (map strip (strings n))).

(** The descendants of a node in document order, each with the siblings
    that follow it. *)
Fixpoint descendants (n : node) : list (node * list node) :=
  match n with
  | Elem _ _ cs =>
      (fix go (l : list node) : list (node * list node) :=
         match l with
         | [] => []
         | c :: l' => (c, l') :: descendants c ++ go l'
         end) cs
  | _ => []
  end.

Definition tag_name (n : node) : option string :=
  match n with
  | Elem name _ _ => Some name
  | _ => None
  end.

Definition is_tag (names : list string) (n : node) : bool :=
  match n with
  | Elem name _ _ => existsb (String.eqb name) names
  | _ => false
  end.

(** [tag.get(key)] *)
Definition attr (key : string) (n : node) : option string :=
  match n with
  | Elem _ attrs _ => attrs !! key
  | _ => None
  end.

(** [tag.find_all(names)], each result with its following siblings. *)
Definition find_all (names : list string) (n : node) : list (node * list node) :=
  List.filter (fun d => is_tag names (fst d)) (descendants n).

(** [tag.find(names)] *)
Definition find_first (names : list string) (n : node) : option node :=
  fst <$> head (find_all names n).

(** ** Records of the program *)

(** A clinic link of the region lister: [{'name': ..., 'url': ...}]. *)
Record clinic_link : Type := ClinicLink {
  cl_name : string;
  cl_url : string
}.

(** A clinic record, with the five keys of [details]. *)
Record clinic_record : Type := ClinicRecord {
  r_name : string;
  r_address : string;
  r_email : string;
  r_phone : string;
  r_services : string
}.

(** ** The world: network, console, clock and files *)

(** What one pass through the [try] body of [get_page_content] does:
    [requests.get] and [raise_for_status] either hand back [response.text]
    or raise. *)
Inductive attempt : Type :=
| Returned (text : string)
| Failed (e : exn).

(** The lines the program prints; a formatted line is kept with the values
    it interpolates. *)
Inductive message : Type :=
| Say (text : string)
| SayErrorFetchingUrl (url err : string)
| SayFetchingRegion (region : string)
| SayFound (n : nat)
| SayErrorFetchingClinic (err : string)
| SayErrorParsing (err : string)
| SayErrorInRegion (region err : string)
| SayTotal (n : nat)
| SayLinks (links : list clinic_link)
| SayProgress (i total : nat) (short_name : string)
| SayMark (ok : bool)
| SaySuccessful (n : nat)
| SayFailedCount (n : nat)
| SaySavedTo (path : string).

Inductive event : Type :=
| EvGet (url : string)
| EvSleep (millis : nat)
| EvPrint (m : message)
| EvOpenWrite (path : string).

(** What the program cannot decide: the answer to its [n]-th request, and
    the tree the HTML parser builds from a text (or the exception it
    raises). *)
Record env : Type := Env {
  net : nat -> string -> attempt;
  html_parser : string -> outcome node
}.

Record world : Type := World {
  w_requests : nat;
  w_trace : list event;
  w_files : gmap string string
}.

Definition M (A : Type) : Type := world -> outcome A * world.

Definition ret {A} (a : A) : M A := fun w => (Val a, w).

Definition bind {A B} (c : M A) (k : A -> M B) : M B :=
  fun w =>
    match c w with
    | (Val a, w') => k a w'
    | (Raise e, w') => (Raise e, w')
    end.

Notation "'let!' x ':=' c 'in' k" := (bind c (fun x => k))
  (at level 10, x name, c at level 100, k at level 200, only parsing).
Notation "c ;;; k" := (bind c (fun _ => k))
  (at level 100, k at level 200, right associativity, only parsing).

(** [try: c except Exception as e: h e] *)
Definition try_except {A} (c : M A) (h : exn -> M A) : M A :=
  fun w =>
    match c w with
    | (Val a, w') => (Val a, w')
    | (Raise e, w') => h e w'
    end.

Definition lift {A} (x : outcome A) : M A := fun w => (x, w).

Definition emit (ev : event) : M unit :=
  fun w => (Val tt, World (w_requests w) (w_trace w ++ [ev]) (w_files w)).

Definition print (m : message) : M unit := emit (EvPrint m).
Definition sleep (millis : nat) : M unit := emit (EvSleep millis).

(** [open(path, 'w', ...)] followed by the writes and the close: the file
    holds [content] afterwards. *)
Definition write_file (path content : string) : M unit :=
  fun w => (Val tt, World (w_requests w) (w_trace w ++ [EvOpenWrite path])
                          (<[path := content]> (w_files w))).

(** [requests.get(url, ...)], [raise_for_status()] and [.text]. *)
Definition http_get (E : env) (url : string) : M attempt :=
  fun w => (Val (net E (w_requests w) url),
            World (S (w_requests w)) (w_trace w ++ [EvGet url]) (w_files w)).

(** The events a computation adds to the trace. *)
Definition run_from {A} (c : M A) (w : world) : outcome A * list event :=
  (fst (c w), drop (length (w_trace w)) (w_trace (snd (c w)))).

(** ** Configuration *)

Definition newline : string := String "010" EmptyString.
Definition dquote : ascii := "034".

Definition BASE_URL : string :=
  "https://web.archive.org/web/20250708180027/https://www.myfootdr.com.au".

Definition REGIONS : list string :=
  ["sunshine-coast"; "brisbane"; "gold-coast"; "north-queensland";
   "central-queensland"; "new-south-wales"; "victoria"; "south-australia";
   "western-australia"; "northern-territory"; "tasmania"].

Definition ADDRESS_OVERRIDES : gmap string string :=
  {[ "Allsports Podiatry Noosa" :=
       "Unit 4, 17 Sunshine Beach Rd" +:+ newline +:+ "Noosa QLD 4567" ]}.

Definition max_retries : nat := 3.

Definition csv_file : string :=
  "/Users/kittubittu/Documents/clinic-data-scraper/clinics.csv".

(** ** The fetcher *)

(** The [for attempt in range(max_retries)] loop of [get_page_content]. *)
Fixpoint fetch_attempts (E : env) (url : string) (attempts : list nat) : M (option string) :=
  match attempts with
  | [] => ret None
  | attempt :: rest =>
      let! r := http_get E url in
      match r with
      | Returned text => ret (Some text)
      | Failed e =>
          if attempt <? max_retries - 1
          then sleep 1000 ;;; fetch_attempts E url rest
          else print (SayErrorFetchingUrl url (take_str 50 (exn_msg e))) ;;; ret None
      end
  end.

Definition get_page_content (E : env) (url : string) : M (option string) :=
  fetch_attempts E url (seq 0 max_retries).

(** ** The region lister *)

Definition build_clinic_url (clinic_path : string) : string :=
  BASE_URL +:+ "/" +:+ lstrip_by (is_char "/") clinic_path.

Definition prefix_to_remove : string := "https://web.archive.org/web/20250708180027/".

(** [a or b or ''] on attribute values. *)
Definition first_truthy (a b : option string) : string :=
  if truthy (default EmptyString a) then default EmptyString a
  else if truthy (default EmptyString b) then default EmptyString b
  else EmptyString.

(** The display name of an anchor: its visible text, else its title or
    aria-label, else the text of a heading nested in it. *)
Definition anchor_name (link : node) : string :=
  let text := get_text_strip link in
  if negb (truthy text) || (slen text <? 2) then
    let text := first_truthy (attr "title" link) (attr "aria-label" link) in
    if negb (truthy text) then
      match find_first ["h2"; "h3"; "h4"] link with
      | Some nested => get_text_strip nested
      | None => text
      end
    else text
  else text.

(** The clinic slug of an href: group 1 of the slug pattern, which takes
    part in every match of it; else the first path segment after the last
    marker. [None] is Python's [None]. *)
Definition clinic_slug (href : string) : option string :=
  match re_search slug_regex href with
  | Some m => assoc 1 (s_groups (m_found m))
  | None =>
      let tail := List.last (split "/our-clinics/" href) EmptyString in
      Some (strip (hd EmptyString (split "/" tail)))
  end.

(** The body of the loop over the anchors: the link appended for this
    anchor, if any. *)
Definition link_of_anchor (link : node) : option clinic_link :=
  match attr "href" link with
  | None => None
  | Some href =>
      let text := anchor_name link in
      if negb (truthy href) || negb (truthy text) || (slen text <? 2) then None
      else if String.eqb (strip text) "Our Clinics" then None
      else if contains "/our-clinics/" href && negb (contains "/regions/" href) then
        match clinic_slug href with
        | Some slug =>
            if truthy slug then
              let clinic_url := build_clinic_url ("our-clinics/" +:+ slug +:+ "/") in
              let clinic_url := replace prefix_to_remove EmptyString clinic_url in
              Some (ClinicLink text clinic_url)
            else None
        | None => None
        end
      else None
  end.

(** [soup.find_all('a', href=True)] *)
Definition anchors (soup : node) : list node :=
  List.filter (fun a => bool_decide (is_Some (attr "href" a)))
              (map fst (find_all ["a"] soup)).

Definition collect_links (soup : node) : list clinic_link :=
  omap link_of_anchor (anchors soup).

(** The loop that removes duplicates, with its two accumulators. *)
Definition dedupe_step (acc : gset string * list clinic_link) (clinic : clinic_link)
  : gset string * list clinic_link :=
  if decide (cl_url clinic ∈ acc.1) then acc
  else ({[cl_url clinic]} ∪ acc.1, acc.2 ++ [clinic]).

Definition remove_duplicates (clinics : list clinic_link) : list clinic_link :=
  (foldl dedupe_step (∅, []) clinics).2.

Definition region_url (region_name : string) : string :=
  BASE_URL +:+ "/our-clinics/regions/" +:+ region_name +:+ "/".

Definition extract_clinics_from_region (E : env) (region_name : string) : M (list clinic_link) :=
  print (SayFetchingRegion region_name) ;;;
  let! content := get_page_content E (region_url region_name) in
  if truthy (default EmptyString content) then
    let! soup := lift (html_parser E (default EmptyString content)) in
    let unique_clinics := remove_duplicates (collect_links soup) in
    print (SayFound (length unique_clinics)) ;;;
    ret unique_clinics
  else
    print (Say "  Failed to fetch region page") ;;; ret [].

(** ** The clinic detail extractor *)

(** [re.sub(r'[^\d\s\(\)\-\+]', '', phone_text).strip()] *)
Definition clean_phone (phone_text : string) : string :=
  strip (re_sub phone_junk (fun _ => EmptyString) phone_text).

(** The group the phone loop reads: [group(1)] if the source of the
    pattern has an opening parenthesis in it, else [group(0)]. *)
Definition phone_group (pat : pattern) (m : match_obj) : outcome string :=
  obind (m_group (if contains "(" (p_source pat) then 1 else 0) m) (fun g =>
    match g with
    | Some phone_text => Val phone_text
    | None => Raise (Exn "TypeError" "expected string or bytes-like object, got 'NoneType'")
    end).

(** The loop over the phone patterns; the value is [details['Phone']]. *)
Fixpoint extract_phone (patterns : list pattern) (text_content : string) : outcome string :=
  match patterns with
  | [] => Val EmptyString
  | pat :: rest =>
      match re_search (p_regex pat) text_content with
      | Some phone_match =>
          obind (phone_group pat phone_match) (fun phone_text =>
            let phone_clean := clean_phone phone_text in
            if truthy phone_clean && (5 <? slen phone_clean)
            then Val phone_clean
            else extract_phone rest text_content)
      | None => extract_phone rest text_content
      end
  end.

Definition extract_email (text_content : string) : string :=
  match re_search email_regex text_content with
  | Some email_match => s_text (m_found email_match)
  | None => EmptyString
  end.

(** [re.sub(r'\s+', ' ', address_match.group(1).strip())] *)
Definition normalize_address (m : match_obj) : string :=
  re_sub whitespace_run (fun _ => " ") (strip (group_text 1 (m_found m))).

(** The loop over the address patterns; the value is [addr_text]. *)
Fixpoint extract_address (patterns : list regex) (text_content : string) : string :=
  match patterns with
  | [] => EmptyString
  | pat :: rest =>
      match re_search pat text_content with
      | Some address_match => normalize_address address_match
      | None => extract_address rest text_content
      end
  end.

(** The first h2 or h3 whose text contains "Services Available", with the
    siblings that follow it. *)
Definition services_heading (soup : node) : option (node * list node) :=
  List.find (fun h => contains "Services Available" (get_text (fst h)))
            (find_all ["h2"; "h3"] soup).

(** The text kept for a service card: that of its first h3, markdown links
    replaced by their text, if longer than 2. *)
Definition service_of_article (article : node) : list string :=
  match find_first ["h3"] article with
  | Some h3 =>
      let service_text := get_text_strip h3 in
      let service_text := re_sub markdown_link (group_text 1) service_text in
      if truthy service_text && (2 <? slen service_text) then [service_text] else []
  | None => []
  end.

(** The walk over the siblings that follow the heading.
    [find_next_sibling()] steps over strings. *)
Fixpoint walk_siblings (siblings : list node) : list string :=
  match siblings with
  | [] => []
  | Elem name attrs cs :: rest =>
      if String.eqb name "h2" then []
      else (if String.eqb name "article" then service_of_article (Elem name attrs cs) else [])
           ++ walk_siblings rest
  | _ :: rest => walk_siblings rest
  end.

Definition extract_services (soup : node) : string :=
  match services_heading soup with
  | Some (_, siblings) => join ", " (walk_siblings siblings)
  | None => EmptyString
  end.

(** [ADDRESS_OVERRIDES.get(name)] and [if override:]. *)
Definition apply_override (name address : string) : string :=
  match ADDRESS_OVERRIDES !! name with
  | Some override => if truthy override then override else address
  | None => address
  end.

(** [extract_clinic_details] from the parsed page on. *)
Definition details_of_page (soup : node) (clinic_name : string) : outcome clinic_record :=
  let text_content := get_text soup in
  obind (extract_phone phone_patterns text_content) (fun phone =>
    let email := extract_email text_content in
    let addr_text := extract_address address_patterns text_content in
    let services := extract_services soup in
    Val (ClinicRecord clinic_name (apply_override clinic_name addr_text) email phone services)).

(** [BeautifulSoup(content, 'html.parser')] on what the fetcher returned;
    with [None] for markup the constructor raises [TypeError]. *)
Definition parse_content (E : env) (content : option string) : outcome node :=
  match content with
  | Some markup => html_parser E markup
  | None => Raise (Exn "TypeError" "object of type 'NoneType' has no len()")
  end.

Definition extract_clinic_details (E : env) (clinic_url clinic_name : string)
  : M (option clinic_record) :=
  let! fetched :=
    try_except (let! content := get_page_content E clinic_url in ret (Some content))
      (fun e => print (SayErrorFetchingClinic (take_str 50 (exn_msg e))) ;;; ret None) in
  match fetched with
  | None => ret None
  | Some content =>
      let! parsed :=
        try_except (let! soup := lift (parse_content E content) in ret (Some soup))
          (fun e => print (SayErrorParsing (take_str 50 (exn_msg e))) ;;; ret None) in
      match parsed with
      | None => ret None
      | Some soup =>
          let! details := lift (details_of_page soup clinic_name) in
          ret (Some details)
      end
  end.

(** ** The delimited output *)

Definition fieldnames : list string :=
  ["Name of Clinic"; "Address"; "Email"; "Phone"; "Services"].

(** The characters that make [csv.writer] quote a field: the delimiter, the
    quote character, and the characters of the line terminator. *)
Definition special (c : ascii) : bool :=
  one_of "," c || Ascii.eqb c dquote || Ascii.eqb c "013" || Ascii.eqb c "010".

Fixpoint any_char (p : ascii -> bool) (s : string) : bool :=
  match s with
  | EmptyString => false
  | String c s' => p c || any_char p s'
  end.

(** The characters of a quoted field: every quote is doubled. *)
Fixpoint double_quotes (s : string) : string :=
  match s with
  | EmptyString => EmptyString
  | String c s' =>
      if Ascii.eqb c dquote then String dquote (String dquote (double_quotes s'))
      else String c (double_quotes s')
  end.

Definition csv_field (field : string) : string :=
  if any_char special field
  then String dquote (double_quotes field +:+ String dquote EmptyString)
  else field.

Definition crlf : string := String "013" (String "010" EmptyString).

(** [writer.writerow(fields)]; a row that would come out empty, a single
    empty field, is written as a pair of quotes. *)
Definition csv_row (fields : list string) : string :=
  let line := join "," (map csv_field fields) in
  match fields, line with
  | _ :: _, EmptyString => String dquote (String dquote crlf)
  | _, _ => line +:+ crlf
  end.

(** [DictWriter._dict_to_list] *)
Definition row_of_record (r : clinic_record) : list string :=
  [r_name r; r_address r; r_email r; r_phone r; r_services r].

(** [writeheader()] then [writerows(clinic_data)]. *)
Definition csv_text (clinic_data : list clinic_record) : string :=
  csv_row fieldnames +:+ concat_all (map (fun r => csv_row (row_of_record r)) clinic_data).

(** ** The orchestrator *)

(** The loop over the regions. *)
Fixpoint list_regions (E : env) (regions : list string) (all_clinics : list clinic_link)
  : M (list clinic_link) :=
  match regions with
  | [] => ret all_clinics
  | region :: rest =>
      let! all_clinics :=
        try_except
          (let! clinics := extract_clinics_from_region E region in
           sleep 500 ;;; ret (all_clinics ++ clinics))
          (fun e => print (SayErrorInRegion region (take_str 50 (exn_msg e))) ;;;
                    ret all_clinics) in
      list_regions E rest all_clinics
  end.

(** The accumulators of the loop over the clinics. *)
Record tally : Type := Tally {
  clinic_data : list clinic_record;
  successful : nat;
  failed : nat
}.

Definition short_name (name : string) : string :=
  if 45 <? slen name then take_str 45 name else name.

(** The loop over the clinics, [i] counting from 1. *)
Fixpoint detail_clinics (E : env) (total i : nat) (clinics : list clinic_link) (acc : tally)
  : M tally :=
  match clinics with
  | [] => ret acc
  | clinic :: rest =>
      print (SayProgress i total (short_name (cl_name clinic))) ;;;
      let! details := extract_clinic_details E (cl_url clinic) (cl_name clinic) in
      let! acc :=
        match details with
        | Some d =>
            print (SayMark true) ;;;
            ret (Tally (clinic_data acc ++ [d]) (S (successful acc)) (failed acc))
        | None =>
            print (SayMark false) ;;;
            ret (Tally (clinic_data acc) (successful acc) (S (failed acc)))
        end in
      sleep 300 ;;;
      detail_clinics E total (S i) rest acc
  end.

Definition rule : string := concat_all (repeat "=" 60).

(** The end of [scrape_all_clinics]: the file is written only if there is
    a record. *)
Definition save_results (t : tally) : M unit :=
  match clinic_data t with
  | _ :: _ =>
      write_file csv_file (csv_text (clinic_data t)) ;;;
      print (Say (newline +:+ newline +:+ rule)) ;;;
      print (SaySuccessful (successful t)) ;;;
      print (SayFailedCount (failed t)) ;;;
      print (SaySavedTo csv_file) ;;;
      print (Say rule)
  | [] => print (Say "No clinic data found!")
  end.

(** [scrape_all_clinics] up to the point where the records are saved. *)
Definition collect_details (E : env) : M tally :=
  print (Say ("Starting clinic data scraper..." +:+ newline)) ;;;
  let! all_clinics := list_regions E REGIONS [] in
  print (SayTotal (length all_clinics)) ;;;
  print (SayLinks all_clinics) ;;;
  print (Say ("Now fetching individual clinic details..." +:+ newline)) ;;;
  detail_clinics E (length all_clinics) 1 all_clinics (Tally [] 0 0).

Definition scrape_all_clinics (E : env) : M unit :=
  let! t := collect_details E in
  save_results t.

Definition initial_world : world := World 0 [] ∅.

(** ** Reading the output back *)

(** Modelled from the spec: the repository has no code that reads the
    output file; the round trip of the spec re-reads it. The reader below is
    the standard reader of delimited text in its default dialect (comma,
    double quote, doubled quotes inside a quoted field), fed line by line
    from a file opened without newline translation: the state machine of
    Python's [csv.reader]. *)
Inductive reader_state : Type :=
| START_RECORD
| START_FIELD
| IN_FIELD
| IN_QUOTED_FIELD
| QUOTE_IN_QUOTED_FIELD
| EAT_CRNL.

Record reader : Type := Reader {
  rd_state : reader_state;
  rd_field : string;              (* the field being read, reversed *)
  rd_fields : list string;        (* the fields of the row being read *)
  rd_rows : list (list string)    (* the rows read so far *)
}.

Definition add_char (c : ascii) (st : reader_state) (r : reader) : reader :=
  Reader st (String c (rd_field r)) (rd_fields r) (rd_rows r).

Definition save_field (st : reader_state) (r : reader) : reader :=
  Reader st EmptyString (rd_fields r ++ [String.rev (rd_field r)]) (rd_rows r).

Definition set_state (st : reader_state) (r : reader) : reader :=
  Reader st (rd_field r) (rd_fields r) (rd_rows r).

Definition is_newline (c : ascii) : bool := Ascii.eqb c "010" || Ascii.eqb c "013".

(** One step of the reader on a character of the line, or on the end of the
    line ([None]). *)
Definition process_char (r : reader) (c : option ascii) : outcome reader :=
  let start_field (r : reader) :=
    match c with
    | None => Val (save_field START_RECORD r)
    | Some a =>
        if is_newline a then Val (save_field EAT_CRNL r)
        else if Ascii.eqb a dquote then Val (set_state IN_QUOTED_FIELD r)
        else if Ascii.eqb a "," then Val (save_field START_FIELD r)
        else Val (add_char a IN_FIELD r)
    end in
  match rd_state r with
  | START_RECORD =>
      match c with
      | None => Val r
      | Some a => if is_newline a then Val (set_state EAT_CRNL r) else start_field r
      end
  | START_FIELD => start_field r
  | IN_FIELD =>
      match c with
      | None => Val (save_field START_RECORD r)
      | Some a =>
          if is_newline a then Val (save_field EAT_CRNL r)
          else if Ascii.eqb a "," then Val (save_field START_FIELD r)
          else Val (add_char a IN_FIELD r)
      end
  | IN_QUOTED_FIELD =>
      match c with
      | None => Val r
      | Some a =>
          if Ascii.eqb a dquote then Val (set_state QUOTE_IN_QUOTED_FIELD r)
          else Val (add_char a IN_QUOTED_FIELD r)
      end
  | QUOTE_IN_QUOTED_FIELD =>
      match c with
      | None => Val (save_field START_RECORD r)
      | Some a =>
          if Ascii.eqb a dquote then Val (add_char a IN_QUOTED_FIELD r)
          else if Ascii.eqb a "," then Val (save_field START_FIELD r)
          else if is_newline a then Val (save_field EAT_CRNL r)
          else Val (add_char a IN_FIELD r)
      end
  | EAT_CRNL =>
      match c with
      | None => Val (set_state START_RECORD r)
      | Some a =>
          if is_newline a then Val r
          else Raise (Exn "Error" "new-line character seen in unquoted field")
      end
  end.

(** The row is handed out when the reader is back at the start of a record. *)
Definition emit_row (r : reader) : reader :=
  Reader START_RECORD EmptyString [] (rd_rows r ++ [rd_fields r]).

Definition end_of_line (r : reader) : outcome reader :=
  obind (process_char r None) (fun r' =>
    match rd_state r' with
    | START_RECORD => Val (emit_row r')
    | _ => Val r'
    end).

(** Whether a line of the file ends after [c], given what follows: lines
    end with a line feed, a carriage return not followed by a line feed, or
    the end of the file. *)
Definition line_ends (c : ascii) (following : string) : bool :=
  match following with
  | EmptyString => true
  | String d _ => Ascii.eqb c "010" || (Ascii.eqb c "013" && negb (Ascii.eqb d "010"))
  end.

Fixpoint read_chars (r : reader) (s : string) : outcome reader :=
  match s with
  | EmptyString => Val r
  | String c s' =>
      obind (process_char r (Some c)) (fun r1 =>
        obind (if line_ends c s' then end_of_line r1 else Val r1) (fun r2 =>
          read_chars r2 s'))
  end.

(** At the end of the file a row that is still open is handed out. *)
Definition end_of_file (r : reader) : list (list string) :=
  match rd_state r with
  | START_RECORD => rd_rows r
  | _ => rd_rows (emit_row (save_field START_RECORD r))
  end.

Definition csv_read (content : string) : outcome (list (list string)) :=
  obind (read_chars (Reader START_RECORD EmptyString [] []) content) (fun r =>
    Val (end_of_file r)).

(** ** Specification-side notions *)

(** The requests of [k] attempts at [url], one second apart. *)
Fixpoint paced_attempts (url : string) (k : nat) : list event :=
  match k with
  | 0 => []
  | 1 => [EvGet url]
  | S k' => EvGet url :: EvSleep 1000 :: paced_attempts url k'
  end.

(** The file is opened for writing by this event. *)
Definition opens_file (ev : event) : bool :=
  match ev with
  | EvOpenWrite _ => true
  | _ => false
  end.

(** A computation that leaves the files alone and opens none. *)
Definition quiet {A} (c : M A) : Prop :=
  ∀ w, w_files (c w).2 = w_files w
       ∧ ∃ evs, w_trace (c w).2 = w_trace w ++ evs
                ∧ forallb (fun ev => negb (opens_file ev)) evs = true.

(** [c] does not let a character of the class through. *)
Fixpoint rejects (c : ascii) (r : regex) : bool :=
  match r with
  | Eps => true
  | Cls p => negb (p c)
  | Seq r1 r2 | Alt r1 r2 => rejects c r1 && rejects c r2
  | Rep p _ => negb (p c)
  | Grp _ r1 => rejects c r1
  end.

(** The same success on a longer string. *)
Definition extend (tail : string) (x : success) : success :=
  Success (s_text x) (s_groups x) (s_rest x +:+ tail).

(** A page that is one string of text. *)
Definition page_of_text (text : string) : node :=
  Elem "[document]" ∅ [Text text].

(** The world [k] requests and the events [evs] later. *)
Definition after (evs : list event) (k : nat) (w : world) : world :=
  World (w_requests w + k) (w_trace w ++ evs) (w_files w).

(** A sibling the walk passes over: a string, or a tag that is neither a
    level-2 heading nor a service card. *)
Definition passed_over (n : node) : Prop := is_tag ["h2"; "article"] n = false.

(** The links whose URL is seen for the first time, in order. *)
Fixpoint first_seen (seen : gset string) (clinics : list clinic_link) : list clinic_link :=
  match clinics with
  | [] => []
  | clinic :: rest =>
      if decide (cl_url clinic ∈ seen) then first_seen seen rest
      else clinic :: first_seen ({[cl_url clinic]} ∪ seen) rest
  end.

(** How many characters of a string are in a class. *)
Fixpoint count_char (p : ascii → bool) (s : string) : nat :=
  match s with
  | EmptyString => 0
  | String c s' => (if p c then 1 else 0) + count_char p s'
  end.

Definition slash : ascii → bool := is_char "/".

Definition live_clinics : string := "https://www.myfootdr.com.au/our-clinics/".

(** ** Example sites *)

(** A site: for each URL it serves, the markup and the tree the parser
    builds from it. Any other URL fails; any other markup parses to an empty
    document. *)
Definition site : Type := list (string * (string * node)).

Fixpoint served (s : site) (url : string) : option (string * node) :=
  match s with
  | [] => None
  | (u, page) :: s' => if String.eqb u url then Some page else served s' url
  end.

Fixpoint parsed (s : site) (markup : string) : node :=
  match s with
  | [] => Elem "[document]" ∅ []
  | (_, (m, tree)) :: s' => if String.eqb m markup then tree else parsed s' markup
  end.

Definition site_env (s : site) : env :=
  Env (fun _ url =>
         match served s url with
         | Some (markup, _) => Returned markup
         | None => Failed (Exn "HTTPError" ("404 Client Error: Not Found for url: " +:+ url))
         end)
      (fun markup => Val (parsed s markup)).

(** No URL answers. *)
Definition offline : env := site_env [].

Definition noosa_url : string := "https://www.myfootdr.com.au/our-clinics/noosa/".

(** The directory page of the first region, with one clinic link. *)
Definition noosa_anchor : node :=
  Elem "a"
    {[ "href" := "/web/20250708180027/https://www.myfootdr.com.au/our-clinics/noosa/" ]}
    [Text "Noosa Clinic"].

Definition region_page : string * (string * node) :=
  (region_url "sunshine-coast",
   ("<a href=/web/20250708180027/https://www.myfootdr.com.au/our-clinics/noosa/>Noosa Clinic</a>",
    Elem "[document]" ∅ [noosa_anchor])).

(** A clinic page that gives its phone number without the word Call. *)
Definition landline_page : node :=
  Elem "[document]" ∅ [Elem "p" ∅ [Text "Phone 07 5555 1234"]].

Definition landline_site : site :=
  [region_page; (noosa_url, ("<p>Phone 07 5555 1234</p>", landline_page))].

(** A clinic page for a name that has an override. *)
Definition allsports_url : string :=
  "https://www.myfootdr.com.au/our-clinics/allsports-podiatry-noosa/".

Definition allsports_page : node :=
  Elem "[document]" ∅
    [Elem "h1" ∅ [Text "Allsports Podiatry Noosa"];
     Elem "p" ∅ [Text "Visit us at 17 Sunshine Beach Rd Noosa QLD 4567. Call (07) 5555 1234"]].

Definition allsports_site : site :=
  [(allsports_url,
    ("<h1>Allsports Podiatry Noosa</h1><p>Visit us at 17 Sunshine Beach Rd Noosa QLD 4567. Call (07) 5555 1234</p>",
     allsports_page))].

(** A directory page that links one clinic twice. *)
Definition brisbane_anchor : node :=
  Elem "a" {[ "href" := "https://www.myfootdr.com.au/our-clinics/brisbane-cbd" ]}
    [Text "Brisbane CBD"].

Definition noosa_map_anchor : node :=
  Elem "a" {[ "href" := "/our-clinics/noosa/#map"; "title" := "Noosa on the map" ]}
    [Elem "img" ∅ []].

Definition directory_page : node :=
  Elem "[document]" ∅
    [Elem "a" {[ "href" := "/our-clinics/" ]} [Text "Our Clinics"];
     Elem "div" ∅ [noosa_anchor; brisbane_anchor; noosa_map_anchor];
     Elem "a" {[ "href" := "/our-clinics/regions/brisbane/" ]} [Text "Brisbane region"]].

Definition directory_site : site :=
  [(region_url "sunshine-coast", ("<html>directory</html>", directory_page))].

(** A clinic page with a services section of two cards. *)
Definition card_podiatry : node :=
  Elem "article" ∅ [Elem "h3" ∅ [Text "Podiatry"]; Elem "p" ∅ [Text "General foot care"]].

Definition card_orthotics : node :=
  Elem "article" ∅ [Elem "div" ∅ [Elem "h3" ∅ [Text " Orthotics "]]].

Definition services_title : node :=
  Elem "h2" ∅ [Text "Services Available at this clinic"].

Definition after_services : list node :=
  [Elem "h2" ∅ [Text "Getting here"]; Elem "article" ∅ [Elem "h3" ∅ [Text "Parking"]]].

Definition services_page : node :=
  Elem "[document]" ∅
    (Elem "h3" ∅ [Text "Welcome"] :: services_title ::
     [Text newline] ++ card_podiatry :: [Elem "div" ∅ []] ++ card_orthotics ::
     [Text newline] ++ after_services).

(** A clinic page that gives its address in a sentence. *)
Definition address_page : node :=
  Elem "[document]" ∅
    [Elem "p" ∅ [Text "Visit us: 123 Main St Noosa QLD 4567"];
     Elem "p" ∅ [Text ". Call (07) 5555 1234"]].

(** Two records whose fields have a comma, a line break and quotes. *)
Definition quoted_foot : string :=
  "The " +:+ String dquote ("Foot" +:+ String dquote " Clinic").

Definition sample_records : list clinic_record :=
  [ClinicRecord "Noosa Clinic"
     ("Unit 4, 17 Sunshine Beach Rd" +:+ newline +:+ "Noosa QLD 4567")
     "noosa@myfootdr.com.au" "(07) 5555 1234" "Podiatry, Orthotics";
   ClinicRecord quoted_foot EmptyString EmptyString "07 5555 9999" "Podiatry"].

(** The world with the events [evs] added and no request made. *)
Definition logged (evs : list event) (w : world) : world :=
  World (w_requests w) (w_trace w ++ evs) (w_files w).

(** A computation that makes at most [n] requests. *)
Definition costs {A} (n : nat) (c : M A) : Prop :=
  ∀ w, w_requests (c w).2 ≤ w_requests w + n.

(** A site with a region page that links one clinic, whose page gives an
    address and a phone number. *)
Definition noosa_site : site :=
  [region_page;
   (noosa_url,
    ("<p>Visit us: 123 Main St Noosa QLD 4567</p><p>. Call (07) 5555 1234</p>",
     address_page))].

(** Every white-space character of the string is a space, and is followed
    by a character that is not white space. *)
Fixpoint well_spaced (s : string) : bool :=
  match s with
  | EmptyString => true
  | String c s' =>
      (if is_space c
       then Ascii.eqb c " "
            && match s' with
               | String d _ => negb (is_space d)
               | EmptyString => false
               end
       else true)
      && well_spaced s'
  end.

(** The string does not start with a character of the class. *)
Definition starts_outside (p : ascii → bool) (s : string) : bool :=
  match s with
  | String c _ => negb (p c)
  | EmptyString => true
  end.

Definition no_leading_space (s : string) : bool := starts_outside is_space s.

Fixpoint no_trailing_space (s : string) : bool :=
  match s with
  | EmptyString => true
  | String c EmptyString => negb (is_space c)
  | String _ s' => no_trailing_space s'
  end.

(** The longest prefix of characters of a class, and the rest. *)
Fixpoint span (p : ascii → bool) (s : string) : string * string :=
  match s with
  | String c s' => if p c then (String c (span p s').1, (span p s').2) else (EmptyString, s)
  | EmptyString => (EmptyString, EmptyString)
  end.

(** A service card whose heading is a markdown link. *)
Definition card_linked : node :=
  Elem "article" ∅ [Elem "h3" ∅ [Text "[Podiatry](/services/podiatry/)"]].

(** * Properties *)

(** ** Strings *)

Lemma append_cons (c : ascii) (s t : string) : String c s +:+ t = String c (s +:+ t).
Proof. reflexivity. Qed.

Lemma append_empty_l (s : string) : EmptyString +:+ s = s.
Proof. reflexivity. Qed.

Lemma append_empty_r (s : string) : s +:+ EmptyString = s.
Proof. induction s as [|c s IH]; [done|]. by rewrite append_cons, IH. Qed.

Lemma append_assoc (s t u : string) : (s +:+ t) +:+ u = s +:+ (t +:+ u).
Proof. induction s as [|c s IH]; [done|]. by rewrite !append_cons, IH. Qed.

Lemma slen_append (s t : string) : slen (s +:+ t) = slen s + slen t.
Proof. induction s as [|c s IH]; [done|]. rewrite append_cons. simpl. by rewrite IH. Qed.

Lemma rev_app_spec (s t : string) : String.rev_app s t = String.rev s +:+ t.
Proof.
  revert t. induction s as [|c s IH]; intros t; [done|].
  unfold String.rev. simpl. rewrite !IH. by rewrite append_assoc.
Qed.

Lemma rev_cons (c : ascii) (s : string) :
  String.rev (String c s) = String.rev s +:+ String c EmptyString.
Proof. unfold String.rev at 1. simpl. apply rev_app_spec. Qed.

Lemma rev_append (s t : string) : String.rev (s +:+ t) = String.rev t +:+ String.rev s.
Proof.
  induction s as [|c s IH].
  - by rewrite append_empty_l, append_empty_r.
  - by rewrite append_cons, !rev_cons, IH, append_assoc.
Qed.

Lemma rev_involutive (s : string) : String.rev (String.rev s) = s.
Proof.
  induction s as [|c s IH]; [done|].
  by rewrite rev_cons, rev_append, IH.
Qed.

(** ** The fetcher *)


Lemma fetch_attempts_cons (E : env) (url : string) (a : nat) (rest : list nat) (w : world) :
  fetch_attempts E url (a :: rest) w =
    match net E (w_requests w) url with
    | Returned text => (Val (Some text), after [EvGet url] 1 w)
    | Failed e =>
        if a <? max_retries - 1
        then fetch_attempts E url rest (after [EvGet url; EvSleep 1000] 1 w)
        else (Val None,
              after [EvGet url;
                     EvPrint (SayErrorFetchingUrl url (take_str 50 (exn_msg e)))] 1 w)
    end.
Proof.
  unfold after. simpl. unfold bind at 1. unfold http_get at 1. simpl.
  rewrite Nat.add_1_r.
  destruct (net E (w_requests w) url) as [text|e]; [done|].
  destruct (a <? 2).
  - unfold bind, sleep, emit. simpl. by rewrite <- app_assoc.
  - unfold bind, print, emit, ret. simpl. by rewrite <- app_assoc.
Qed.

Lemma fetch_attempts_spec (E : env) (url : string) (attempts : list nat) (w : world) :
  attempts ≠ [] →
  last attempts = Some (max_retries - 1) →
  Forall (fun a => a < max_retries) attempts →
  NoDup attempts →
  ∃ (result : option string) (k : nat) (report : list event),
    fetch_attempts E url attempts w =
      (Val result, after (paced_attempts url k ++ report) k w)
    ∧ 1 ≤ k ≤ length attempts
    ∧ (∀ i, i < k - 1 → ∃ e, net E (w_requests w + i) url = Failed e)
    ∧ match net E (w_requests w + (k - 1)) url with
      | Returned text => result = Some text ∧ report = []
      | Failed e =>
          result = None ∧ k = length attempts
          ∧ report = [EvPrint (SayErrorFetchingUrl url (take_str 50 (exn_msg e)))]
      end.
Proof.
  revert w. induction attempts as [|a rest IH]; intros w Hne Hlast Hall Hnd; [done|].
  rewrite fetch_attempts_cons.
  destruct (net E (w_requests w) url) as [text|e] eqn:Hnet.
  - exists (Some text), 1, []. simpl. rewrite Nat.add_0_r, Hnet.
    split; [done|]. split; [lia|]. split; [intros; lia|done].
  - destruct rest as [|b rest'].
    + simpl in Hlast. injection Hlast as ->. rewrite Nat.ltb_irrefl.
      exists None, 1, [EvPrint (SayErrorFetchingUrl url (take_str 50 (exn_msg e)))].
      simpl. rewrite Nat.add_0_r, Hnet.
      split; [done|]. split; [lia|]. split; [intros; lia|done].
    + change (last (b :: rest') = Some (max_retries - 1)) in Hlast.
      apply Forall_cons in Hall as [Ha Hall]. apply NoDup_cons in Hnd as [Hnin Hnd].
      assert ((a <? max_retries - 1) = true) as ->.
      { apply Nat.ltb_lt. assert (a ≠ max_retries - 1); [|lia].
        intros ->. apply Hnin. by apply last_Some_elem_of. }
      destruct (IH (after [EvGet url; EvSleep 1000] 1 w))
        as (result & k & report & Heq & Hk & Hfail & Hlastk); [done..|].
      simpl w_requests in *.
      exists result, (S k), report. rewrite Heq.
      split; [|split; [simpl length in *; lia|split]].
      * f_equal. unfold after. simpl w_requests. simpl w_trace. simpl w_files.
        f_equal; [lia|]. rewrite <- !app_assoc. simpl.
        destruct k as [|k']; [lia|]. done.
      * intros i Hi. destruct i as [|i'].
        -- rewrite Nat.add_0_r. eauto.
        -- destruct (Hfail i') as [e' He']; [lia|]. exists e'.
           by replace (w_requests w + S i') with (w_requests w + 1 + i') by lia.
      * replace (w_requests w + (S k - 1)) with (w_requests w + 1 + (k - 1)) by lia.
        destruct (net E (w_requests w + 1 + (k - 1)) url); [done|].
        destruct Hlastk as (? & ? & ?). split; [done|]. split; [simpl length in *; lia|done].
Qed.

(** Claim C3. The fetcher never raises; it issues between one and three
    requests for the URL, with a pause of one second between consecutive
    requests and none elsewhere; every request before the last one failed;
    if the last request succeeded its text is returned, and if it failed
    it was the third one, the error is reported and [None] is returned.
    In particular three failing attempts give [None]. *)
Theorem fetcher_three_paced_attempts (E : env) (url : string) (w : world) :
  ∃ (result : option string) (k : nat) (report : list event),
    get_page_content E url w =
      (Val result, after (paced_attempts url k ++ report) k w)
    ∧ 1 ≤ k ≤ 3
    ∧ (report = [] ∨ ∃ err, report = [EvPrint (SayErrorFetchingUrl url err)])
    ∧ (∀ i, i < k - 1 → ∃ e, net E (w_requests w + i) url = Failed e)
    ∧ (∀ text, net E (w_requests w + (k - 1)) url = Returned text → result = Some text)
    ∧ ((∀ i, i < 3 → ∃ e, net E (w_requests w + i) url = Failed e) →
       result = None ∧ k = 3).
Proof.
  destruct (fetch_attempts_spec E url (seq 0 max_retries) w)
    as (result & k & report & Heq & Hk & Hfail & Hlast).
  - done.
  - done.
  - apply Forall_forall. intros a Ha. apply elem_of_seq in Ha. lia.
  - apply NoDup_seq.
  - exists result, k, report. unfold get_page_content. rewrite Heq.
    change (length (seq 0 max_retries)) with 3 in *.
    split; [done|]. split; [done|].
    destruct (net E (w_requests w + (k - 1)) url) as [text|e] eqn:Hnet.
    + destruct Hlast as [-> ->]. split; [by left|]. split; [done|].
      split; [by intros ? [= ->]|].
      intros Hall. destruct (Hall (k - 1)) as [e He]; [lia|]. congruence.
    + destruct Hlast as (-> & -> & ->). split; [right; eauto|]. split; [done|].
      split; [done|done].
Qed.

(** ** Computations that open no file *)

Lemma quiet_ret {A} (a : A) : quiet (ret a).
Proof. intros w. split; [done|]. exists []. by rewrite app_nil_r. Qed.

Lemma quiet_lift {A} (x : outcome A) : quiet (lift x).
Proof. intros w. split; [done|]. exists []. by rewrite app_nil_r. Qed.

Lemma quiet_emit (ev : event) : opens_file ev = false → quiet (emit ev).
Proof. intros Hev w. split; [done|]. exists [ev]. simpl. by rewrite Hev. Qed.

Lemma quiet_print (m : message) : quiet (print m).
Proof. by apply quiet_emit. Qed.

Lemma quiet_sleep (millis : nat) : quiet (sleep millis).
Proof. by apply quiet_emit. Qed.

Lemma quiet_http_get (E : env) (url : string) : quiet (http_get E url).
Proof. intros w. split; [done|]. by exists [EvGet url]. Qed.

Lemma quiet_bind {A B} (c : M A) (k : A → M B) :
  quiet c → (∀ a, quiet (k a)) → quiet (bind c k).
Proof.
  intros Hc Hk w. unfold bind.
  destruct (Hc w) as (Hf & evs & Ht & Hq).
  destruct (c w) as [[a|e] w1]; simpl in *.
  - destruct (Hk a w1) as (Hf' & evs' & Ht' & Hq').
    split; [congruence|]. exists (evs ++ evs').
    rewrite Ht', Ht, app_assoc. split; [done|].
    rewrite forallb_app. by rewrite Hq, Hq'.
  - split; [done|]. by exists evs.
Qed.

Lemma quiet_try {A} (c : M A) (h : exn → M A) :
  quiet c → (∀ e, quiet (h e)) → quiet (try_except c h).
Proof.
  intros Hc Hh w. unfold try_except.
  destruct (Hc w) as (Hf & evs & Ht & Hq).
  destruct (c w) as [[a|e] w1]; simpl in *.
  - split; [done|]. by exists evs.
  - destruct (Hh e w1) as (Hf' & evs' & Ht' & Hq').
    split; [congruence|]. exists (evs ++ evs').
    rewrite Ht', Ht, app_assoc. split; [done|].
    rewrite forallb_app. by rewrite Hq, Hq'.
Qed.

Create HintDb quiet.
#[local] Hint Resolve quiet_ret quiet_lift quiet_print quiet_sleep quiet_http_get : quiet.

Ltac quiet_step :=
  first [ solve [eauto with quiet]
        | apply quiet_bind; [|intros ?]
        | apply quiet_try; [|intros ?] ].

Lemma quiet_fetch_attempts (E : env) (url : string) (attempts : list nat) :
  quiet (fetch_attempts E url attempts).
Proof.
  induction attempts as [|a rest IH]; simpl; [apply quiet_ret|].
  apply quiet_bind; [apply quiet_http_get|]. intros [text|e]; [apply quiet_ret|].
  destruct (a <? 2); repeat quiet_step.
Qed.

Lemma quiet_get_page_content (E : env) (url : string) : quiet (get_page_content E url).
Proof. apply quiet_fetch_attempts. Qed.

#[local] Hint Resolve quiet_get_page_content : quiet.

Lemma quiet_extract_clinics_from_region (E : env) (region : string) :
  quiet (extract_clinics_from_region E region).
Proof.
  unfold extract_clinics_from_region. repeat quiet_step.
  destruct (truthy _); repeat quiet_step.
Qed.

Lemma quiet_extract_clinic_details (E : env) (url name : string) :
  quiet (extract_clinic_details E url name).
Proof.
  unfold extract_clinic_details. repeat quiet_step.
  match goal with a : option (option string) |- _ => destruct a as [content|] end;
    repeat quiet_step.
  match goal with a : option node |- _ => destruct a as [soup|] end; repeat quiet_step.
Qed.

#[local] Hint Resolve quiet_extract_clinics_from_region quiet_extract_clinic_details : quiet.

Lemma quiet_list_regions (E : env) (regions : list string) (all_clinics : list clinic_link) :
  quiet (list_regions E regions all_clinics).
Proof.
  revert all_clinics. induction regions as [|region rest IH]; intros all_clinics; simpl.
  - apply quiet_ret.
  - repeat quiet_step.
Qed.

Lemma quiet_detail_clinics (E : env) (total i : nat) (clinics : list clinic_link) (acc : tally) :
  quiet (detail_clinics E total i clinics acc).
Proof.
  revert i acc. induction clinics as [|clinic rest IH]; intros i acc; simpl.
  - apply quiet_ret.
  - repeat quiet_step.
    match goal with a : option clinic_record |- _ => destruct a end; repeat quiet_step.
Qed.

Lemma quiet_collect_details (E : env) : quiet (collect_details E).
Proof.
  unfold collect_details.
  repeat first [ apply quiet_list_regions | apply quiet_detail_clinics | quiet_step ].
Qed.

Lemma bind_val {A B} (c : M A) (k : A → M B) (w w' : world) (a : A) :
  c w = (Val a, w') → bind c k w = k a w'.
Proof. intros H. unfold bind. by rewrite H. Qed.

Lemma bind_raise {A B} (c : M A) (k : A → M B) (w w' : world) (e : exn) :
  c w = (Raise e, w') → bind c k w = (Raise e, w').
Proof. intros H. unfold bind. by rewrite H. Qed.

(** With no link to visit, no record is collected. *)
Lemma collect_details_no_links (E : env) (w w1 : world) :
  list_regions E REGIONS [] (after [EvPrint (Say ("Starting clinic data scraper..." +:+ newline))] 0 w)
    = (Val [], w1) →
  ∃ w2, collect_details E w = (Val (Tally [] 0 0), w2).
Proof.
  intros H. unfold collect_details.
  unfold bind at 1. unfold print at 1, emit at 1.
  unfold after in H. rewrite Nat.add_0_r in H. simpl fst. simpl snd.
  cbv beta iota. rewrite (bind_val _ _ _ _ _ H).
  unfold bind, print, emit. simpl. eauto.
Qed.

(** Claim C9. If the run reaches the point of saving with no record
    collected, the notice "No clinic data found!" is the last thing it
    prints, the run ends normally, no file was opened for writing and the
    files are as they were; this is the case in particular when the regions
    yield no clinic link at all. *)
Theorem no_records_no_file (E : env) (w : world) :
  (∀ t w1,
     collect_details E w = (Val t, w1) →
     clinic_data t = [] →
     ∃ evs,
       scrape_all_clinics E w =
         (Val tt, World (w_requests w1)
                        (w_trace w ++ evs ++ [EvPrint (Say "No clinic data found!")])
                        (w_files w))
       ∧ forallb (fun ev => negb (opens_file ev)) evs = true)
  ∧ (∀ w1,
       list_regions E REGIONS []
         (after [EvPrint (Say ("Starting clinic data scraper..." +:+ newline))] 0 w)
         = (Val [], w1) →
       ∃ t w2, collect_details E w = (Val t, w2) ∧ clinic_data t = []).
Proof.
  split.
  - intros t w1 Hrun Hempty.
    destruct (quiet_collect_details E w) as (Hf & evs & Ht & Hq).
    rewrite Hrun in Hf, Ht. simpl in Hf, Ht.
    exists evs. split; [|done].
    unfold scrape_all_clinics. rewrite (bind_val _ _ _ _ _ Hrun).
    unfold save_results. rewrite Hempty.
    unfold print, emit. by rewrite Ht, Hf, app_assoc.
  - intros w1 H. destruct (collect_details_no_links E w w1 H) as [w2 Hw2]. eauto.
Qed.

(** ** The matcher *)

Lemma head_In {A} (l : list A) (x : A) : head l = Some x → In x l.
Proof. destruct l; [done|]. intros [= ->]. by left. Qed.

Lemma rep_sound (p : ascii → bool) (lo : nat) (s m t : string) :
  In (m, t) (rep p lo s) → s = m +:+ t ∧ any_char (cls_not p) m = false ∧ lo ≤ slen m.
Proof.
  revert lo m t. induction s as [|c s IH]; intros lo m t Hin.
  - destruct lo; simpl in Hin; [|done]. destruct Hin as [[= <- <-]|[]]. done.
  - assert (In (m, t) (match lo with 0 => [(EmptyString, String c s)] | S _ => [] end)
            → String c s = m +:+ t ∧ any_char (cls_not p) m = false ∧ lo ≤ slen m) as Hstop.
    { destruct lo; [|done]. intros [[= <- <-]|[]]. done. }
    simpl in Hin. destruct (p c) eqn:Hp; [|by apply Hstop].
    apply in_app_iff in Hin as [Hin|Hin]; [|by apply Hstop].
    apply in_map_iff in Hin as ([m' t'] & [= <- <-] & Hin).
    apply IH in Hin as (-> & Hm & Hlo). simpl.
    split; [done|]. split; [|lia].
    unfold cls_not at 1. by rewrite Hp.
Qed.

Lemma run_no_groups (r : regex) (s : string) (x : success) :
  ngroups r = 0 → In x (run r s) → s_groups x = [].
Proof.
  revert s x. induction r as [|p|r1 IH1 r2 IH2|r1 IH1 r2 IH2|p lo|i r IH]; intros s x Hn Hin;
    simpl in *.
  - by destruct Hin as [<-|[]].
  - destruct s as [|c s]; [done|]. destruct (p c); [|done]. by destruct Hin as [<-|[]].
  - apply in_flat_map in Hin as (x1 & H1 & Hin).
    apply in_map_iff in Hin as (x2 & <- & H2). simpl.
    rewrite (IH1 s x1), (IH2 (s_rest x1) x2); [done|lia|done|lia|done].
  - apply in_app_iff in Hin as [Hin|Hin]; [apply (IH1 s)|apply (IH2 s)]; [lia|done|lia|done].
  - apply in_map_iff in Hin as (mt & <- & _). done.
  - done.
Qed.

Lemma search_from_found (r : regex) (pos : nat) (s : string) (m : match_obj) :
  search_from r pos s = Some m →
  m_ngroups m = ngroups r ∧ ∃ t, match_at r t = Some (m_found m).
Proof.
  revert pos. induction s as [|c s IH]; intros pos; simpl.
  - destruct (match_at r EmptyString) eqn:Hm; [|done]. intros [= <-]. eauto.
  - destruct (match_at r (String c s)) eqn:Hm; [intros [= <-]; eauto|]. apply IH.
Qed.

(** A search that finds nothing before a position goes on from there. *)
Lemma search_from_skip (r : regex) (pos : nat) (pre t : string) :
  (∀ m, search_from r pos (pre +:+ t) = Some m → pos + slen pre ≤ m_start m) →
  search_from r pos (pre +:+ t) = search_from r (pos + slen pre) t.
Proof.
  revert pos. induction pre as [|c pre IH]; intros pos Hno.
  - simpl slen. by rewrite Nat.add_0_r.
  - rewrite append_cons in *. simpl in *.
    destruct (match_at r (String c (pre +:+ t))) eqn:Hm.
    + specialize (Hno _ eq_refl). simpl in Hno. lia.
    + rewrite IH; [f_equal; lia|]. intros m Hs. specialize (Hno m Hs). lia.
Qed.

Lemma rep_rejects (p : ascii → bool) (lo : nat) (c : ascii) (tail s : string) :
  p c = false →
  rep p lo (s +:+ String c tail)
  = map (fun mt => (mt.1, mt.2 +:+ String c tail)) (rep p lo s).
Proof.
  intros Hc. revert lo. induction s as [|a s IH]; intros lo.
  - rewrite append_empty_l. simpl. rewrite Hc. by destruct lo.
  - rewrite append_cons. simpl. destruct (p a).
    + rewrite IH, map_app, !map_map. by destruct lo.
    + by destruct lo.
Qed.

(** A character that every class of the pattern rejects cuts the string:
    the pattern matches before it as if the string ended there. *)
Lemma run_rejects (r : regex) (c : ascii) (tail s : string) :
  rejects c r = true →
  run r (s +:+ String c tail) = map (extend (String c tail)) (run r s).
Proof.
  revert s. induction r as [|p|r1 IH1 r2 IH2|r1 IH1 r2 IH2|p lo|i r IH]; intros s Hrej;
    simpl in Hrej.
  - done.
  - apply negb_true_iff in Hrej. destruct s as [|a s].
    + rewrite append_empty_l. simpl. by rewrite Hrej.
    + rewrite append_cons. simpl. by destruct (p a).
  - apply andb_true_iff in Hrej as [H1 H2]. simpl. rewrite IH1 by done.
    rewrite !flat_map_concat_map, concat_map, !map_map. f_equal.
    apply map_ext. intros x. unfold extend at 1. simpl.
    rewrite IH2 by done. by rewrite !map_map.
  - apply andb_true_iff in Hrej as [H1 H2]. simpl.
    by rewrite IH1, IH2, map_app.
  - apply negb_true_iff in Hrej. simpl. rewrite rep_rejects by done.
    by rewrite !map_map.
  - simpl. rewrite IH by done. by rewrite !map_map.
Qed.

Lemma match_at_rejects (r : regex) (c : ascii) (tail s : string) :
  rejects c r = true →
  match_at r (s +:+ String c tail) = extend (String c tail) <$> match_at r s.
Proof.
  intros Hrej. unfold match_at. rewrite run_rejects by done.
  by destruct (run r s).
Qed.

(** ** The phone number *)

(** Whenever the loop reaches the second phone pattern and the pattern
    matches, reading the match raises: the source of the pattern has an
    opening parenthesis in it, so group 1 is asked of a pattern that has no
    group. *)
Lemma second_phone_pattern_raises (text_content : string) (m : match_obj) :
  re_search (p_regex phone_pattern_2) text_content = Some m →
  extract_phone [phone_pattern_2] text_content = Raise (Exn "IndexError" "no such group").
Proof.
  intros Hm. cbn [extract_phone]. rewrite Hm.
  apply search_from_found in Hm as [Hn _].
  unfold phone_group, m_group. change (contains "(" (p_source phone_pattern_2)) with true.
  cbv iota. rewrite Hn. done.
Qed.

(** Claim C1, at a page whose text is "Phone 07 5555 1234": the first
    phone pattern does not match, the second one matches " 07 5555 1234",
    which cleans to "07 5555 1234" (12 characters), and the extractor raises
    [IndexError] instead of returning a record with that phone number. *)
Theorem landline_page_raises :
  get_text landline_page = "Phone 07 5555 1234"
  ∧ re_search (p_regex phone_pattern_1) (get_text landline_page) = None
  ∧ (∃ m, re_search (p_regex phone_pattern_2) (get_text landline_page) = Some m
          ∧ s_text (m_found m) = " 07 5555 1234"
          ∧ clean_phone (s_text (m_found m)) = "07 5555 1234")
  ∧ details_of_page landline_page "Noosa Clinic" = Raise (Exn "IndexError" "no such group").
Proof.
  split; [done|]. split; [by vm_compute|]. split.
  - eexists. split; [by vm_compute|]. by vm_compute.
  - unfold details_of_page.
    change (extract_phone phone_patterns (get_text landline_page))
      with (extract_phone [phone_pattern_2] (get_text landline_page)).
    by erewrite second_phone_pattern_raises by by vm_compute.
Qed.

(** Claim C4, on a site whose only clinic page gives its phone number
    without the word Call: the page is fetched and parsed, the extractor
    raises instead of returning a record, the exception ends the whole run,
    and no file is written. *)
Theorem landline_site_run_raises :
  (∃ w, get_page_content (site_env landline_site) noosa_url initial_world
          = (Val (Some "<p>Phone 07 5555 1234</p>"), w))
  ∧ html_parser (site_env landline_site) "<p>Phone 07 5555 1234</p>" = Val landline_page
  ∧ (∃ w, extract_clinic_details (site_env landline_site) noosa_url "Noosa Clinic" initial_world
          = (Raise (Exn "IndexError" "no such group"), w))
  ∧ (∃ w, scrape_all_clinics (site_env landline_site) initial_world
          = (Raise (Exn "IndexError" "no such group"), w)
          ∧ w_files w = ∅
          ∧ In (EvGet noosa_url) (w_trace w)).
Proof.
  split; [eexists; by vm_compute|]. split; [by vm_compute|].
  split; [eexists; by vm_compute|].
  eexists. split; [by vm_compute|]. split; [done|]. vm_compute. tauto.
Qed.

(** ** The detail extractor *)

Lemma get_page_content_val (E : env) (url : string) (w : world) :
  ∃ content k evs,
    get_page_content E url w = (Val content, after evs k w)
    ∧ Forall (fun ev => ∀ u, ev = EvGet u → u = url) evs.
Proof.
  destruct (fetch_attempts_spec E url (seq 0 max_retries) w)
    as (result & k & report & Heq & _ & _ & Hlast); [done|done| |apply NoDup_seq|].
  { apply Forall_forall. intros a Ha. apply elem_of_seq in Ha. lia. }
  exists result, k, (paced_attempts url k ++ report). split; [done|].
  apply Forall_app. split.
  - clear. induction k as [|[|k'] IH]; simpl.
    + constructor.
    + repeat constructor. by intros u [= ->].
    + constructor; [by intros u [= ->]|]. constructor; [done|]. apply IH.
  - destruct (net E _ url); [by destruct Hlast as [_ ->]|].
    destruct Hlast as (_ & _ & ->). by repeat constructor.
Qed.

(** What [extract_clinic_details] does once the fetcher has returned. *)
Lemma extract_clinic_details_unfold (E : env) (url name : string) (w w1 : world)
    (content : option string) :
  get_page_content E url w = (Val content, w1) →
  extract_clinic_details E url name w =
    match parse_content E content with
    | Raise e =>
        (Val None, after [EvPrint (SayErrorParsing (take_str 50 (exn_msg e)))] 0 w1)
    | Val soup =>
        match details_of_page soup name with
        | Val details => (Val (Some details), w1)
        | Raise e => (Raise e, w1)
        end
    end.
Proof.
  intros Hget. unfold extract_clinic_details.
  unfold bind at 1. unfold try_except at 1. rewrite (bind_val _ _ _ _ _ Hget).
  unfold ret at 1. cbv beta iota.
  unfold bind at 1. unfold try_except at 1. unfold bind at 1. unfold lift at 1.
  destruct (parse_content E content) as [soup|e].
  - unfold ret at 1. cbv beta iota. unfold bind, lift, ret.
    by destruct (details_of_page soup name).
  - unfold bind, print, emit, ret, after. cbv beta iota. simpl.
    by rewrite Nat.add_0_r.
Qed.

(** A record is returned only for a page that was fetched and parsed. *)
Lemma extract_clinic_details_some (E : env) (url name : string) (w w' : world)
    (details : clinic_record) :
  extract_clinic_details E url name w = (Val (Some details), w') →
  ∃ markup soup,
    get_page_content E url w = (Val (Some markup), w')
    ∧ html_parser E markup = Val soup
    ∧ details_of_page soup name = Val details.
Proof.
  intros Hrun.
  destruct (get_page_content_val E url w) as (content & k & evs & Hget & _).
  rewrite (extract_clinic_details_unfold _ _ _ _ _ _ Hget) in Hrun.
  destruct content as [markup|]; simpl in Hrun; [|done].
  destruct (html_parser E markup) as [soup|e] eqn:Hparse; [|done].
  destruct (details_of_page soup name) as [d|e] eqn:Hd; [|done].
  injection Hrun as -> <-. eauto.
Qed.

Lemma details_of_page_val (soup : node) (name : string) (details : clinic_record) :
  details_of_page soup name = Val details →
  ∃ phone,
    extract_phone phone_patterns (get_text soup) = Val phone
    ∧ details =
        ClinicRecord name
          (apply_override name (extract_address address_patterns (get_text soup)))
          (extract_email (get_text soup)) phone (extract_services soup).
Proof.
  unfold details_of_page. destruct (extract_phone _ _) as [phone|e]; [|done].
  simpl. intros [= <-]. eauto.
Qed.

(** Claim C5. In a record the extractor returns, the address is the value
    the override table has for the clinic name, if it has one, whatever the
    page gave; otherwise it is the address extracted from the page. *)
Theorem override_replaces_address (E : env) (url name : string) (w w' : world)
    (details : clinic_record) :
  extract_clinic_details E url name w = (Val (Some details), w') →
  ∃ markup soup,
    get_page_content E url w = (Val (Some markup), w')
    ∧ html_parser E markup = Val soup
    ∧ r_name details = name
    ∧ (∀ override, ADDRESS_OVERRIDES !! name = Some override → r_address details = override)
    ∧ (ADDRESS_OVERRIDES !! name = None →
       r_address details = extract_address address_patterns (get_text soup)).
Proof.
  intros Hrun.
  apply extract_clinic_details_some in Hrun as (markup & soup & Hget & Hparse & Hd).
  exists markup, soup. split; [done|]. split; [done|].
  apply details_of_page_val in Hd as (phone & _ & ->). simpl.
  split; [done|]. unfold apply_override. split.
  - intros override Hov. rewrite Hov.
    unfold ADDRESS_OVERRIDES in Hov. apply lookup_singleton_Some in Hov as [_ <-].
    done.
  - by intros ->.
Qed.

(** ** The services *)

Lemma walk_siblings_passed_over (skipped rest : list node) :
  Forall passed_over skipped → walk_siblings (skipped ++ rest) = walk_siblings rest.
Proof.
  induction 1 as [|n skipped Hn _ IH]; [done|]. simpl.
  destruct n as [s|s|name attrs cs]; [done|done|].
  unfold passed_over in Hn. simpl in Hn.
  destruct (String.eqb name "h2"); [done|].
  destruct (String.eqb name "article"); [done|]. done.
Qed.

Lemma walk_siblings_card (card : node) (rest : list node) :
  tag_name card = Some "article" →
  walk_siblings (card :: rest) = service_of_article card ++ walk_siblings rest.
Proof. destruct card as [s|s|name attrs cs]; [done|done|]. by intros [= ->]. Qed.

(** The walk ends at a level-2 heading: nothing after it is looked at. *)
Lemma walk_siblings_stops (pre post : list node) (attrs : gmap string string)
    (cs : list node) :
  walk_siblings (pre ++ Elem "h2" attrs cs :: post) = walk_siblings pre.
Proof.
  induction pre as [|n pre IH]; [done|]. simpl.
  destruct n as [s|s|name a c]; [done|done|].
  destruct (String.eqb name "h2"); [done|]. by rewrite IH.
Qed.

Lemma find_first_match {A} (f : A → bool) (before after : list A) (x : A) :
  Forall (fun y => f y = false) before → f x = true →
  List.find f (before ++ x :: after) = Some x.
Proof.
  intros Hb Hx. induction Hb as [|y before Hy _ IH]; simpl.
  - by rewrite Hx.
  - by rewrite Hy.
Qed.

Lemma service_of_card (card h3 : node) (service : string) :
  find_first ["h3"] card = Some h3 →
  get_text_strip h3 = service →
  re_sub markdown_link (group_text 1) service = service →
  2 < slen service →
  service_of_article card = [service].
Proof.
  intros Hh3 Htext Hsub Hlen. unfold service_of_article.
  rewrite Hh3, Htext, Hsub.
  assert (truthy service = true) as ->.
  { destruct service; [simpl in Hlen; lia|done]. }
  by apply Nat.ltb_lt in Hlen as ->.
Qed.

(** Claim C7. Let the first level-2 or level-3 heading whose text contains
    "Services Available" be followed, before the next level-2 heading or
    the end of its siblings, by two service cards and otherwise only by
    siblings the walk passes over, the first level-3 headings of the cards
    reading "Podiatry" and "Orthotics". Then the Services field of the
    returned record is "Podiatry, Orthotics". And whatever the siblings are,
    the walk ends at the first level-2 heading. *)
Theorem services_of_two_cards (soup : node) (name : string) (details : clinic_record)
    (before later : list (node * list node)) (heading : node)
    (s0 s1 s2 tail : list node) (card1 card2 h3a h3b : node) :
  find_all ["h2"; "h3"] soup
    = before ++ (heading, s0 ++ card1 :: s1 ++ card2 :: s2 ++ tail) :: later →
  Forall (fun h => contains "Services Available" (get_text h.1) = false) before →
  contains "Services Available" (get_text heading) = true →
  Forall passed_over s0 → Forall passed_over s1 → Forall passed_over s2 →
  (tail = [] ∨ ∃ attrs cs rest, tail = Elem "h2" attrs cs :: rest) →
  tag_name card1 = Some "article" → find_first ["h3"] card1 = Some h3a →
  get_text_strip h3a = "Podiatry" →
  tag_name card2 = Some "article" → find_first ["h3"] card2 = Some h3b →
  get_text_strip h3b = "Orthotics" →
  details_of_page soup name = Val details →
  r_services details = "Podiatry, Orthotics"
  ∧ (∀ pre attrs cs post,
       walk_siblings (pre ++ Elem "h2" attrs cs :: post) = walk_siblings pre).
Proof.
  intros Hall Hbefore Hheading H0 H1 H2 Htail Hc1 Hh1 Ht1 Hc2 Hh2 Ht2 Hd.
  split; [|intros; apply walk_siblings_stops].
  apply details_of_page_val in Hd as (phone & _ & ->). simpl.
  unfold extract_services, services_heading. rewrite Hall.
  rewrite (find_first_match _ before later (heading, _)) by done.
  rewrite walk_siblings_passed_over by done.
  rewrite walk_siblings_card by done.
  rewrite walk_siblings_passed_over by done.
  rewrite walk_siblings_card by done.
  rewrite walk_siblings_passed_over by done.
  rewrite (service_of_card card1 h3a "Podiatry") by first [done | by vm_compute | simpl; lia].
  rewrite (service_of_card card2 h3b "Orthotics") by first [done | by vm_compute | simpl; lia].
  destruct Htail as [->|(attrs & cs & rest & ->)]; [done|].
  simpl. done.
Qed.

(** ** The address *)

Lemma search_from_hit (r : regex) (pos : nat) (s : string) (x : success) :
  match_at r s = Some x → search_from r pos s = Some (Match pos x (ngroups r)).
Proof. intros Hx. destruct s; simpl; by rewrite Hx. Qed.

Lemma number_chars_rejects (c : ascii) :
  number_chars c = false → rejects c address_regex_2 = true.
Proof.
  destruct c as [[] [] [] [] [] [] [] []]; vm_compute; intros H;
    first [reflexivity | discriminate H].
Qed.

(** Claim C8 as stated fails. The text below contains
    "123 Main St Noosa QLD 4567" and neither address pattern matches before
    it, but the first pattern, tried first, matches from the "No" of "Noosa"
    up to the postcode of the address that follows. *)
Lemma address_claim_counterexample :
  ¬ (∀ (soup : node) (name : string) (details : clinic_record) (pre suf : string),
       get_text soup = pre +:+ "123 Main St Noosa QLD 4567" +:+ suf →
       (∀ pat m, In pat address_patterns →
                 re_search pat (get_text soup) = Some m → slen pre ≤ m_start m) →
       details_of_page soup name = Val details →
       r_address details = "123 Main St Noosa QLD 4567").
Proof.
  intros claim.
  specialize (claim
    (page_of_text "Find us at 123 Main St Noosa QLD 4567, 5 Foo St Bar QLD 4000")
    "Noosa Clinic"
    (ClinicRecord "Noosa Clinic" "Noosa QLD 4567, 5 Foo St Bar QLD 4000"
       EmptyString EmptyString EmptyString)
    "Find us at " ", 5 Foo St Bar QLD 4000").
  discriminate claim.
  - by vm_compute.
  - intros pat m [<-|[<-|[]]] Hm; vm_compute in Hm; injection Hm as <-; simpl; lia.
  - by vm_compute.
Qed.

(** Claim C8, amended. Let the text of the page contain
    "123 Main St Noosa QLD 4567", followed by the end of the text or by a
    character that is neither a word character nor white space nor a
    hyphen; let the first address pattern match nowhere in the text and the
    second one nowhere before that substring; let the clinic name have no
    override. Then the Address field of the returned record is
    "123 Main St Noosa QLD 4567". *)
Theorem address_of_delimited_match (soup : node) (name : string)
    (details : clinic_record) (pre suf : string) :
  get_text soup = pre +:+ "123 Main St Noosa QLD 4567" +:+ suf →
  re_search address_regex_1 (get_text soup) = None →
  (∀ m, re_search address_regex_2 (get_text soup) = Some m → slen pre ≤ m_start m) →
  (suf = EmptyString ∨ ∃ c suf', suf = String c suf' ∧ number_chars c = false) →
  ADDRESS_OVERRIDES !! name = None →
  details_of_page soup name = Val details →
  r_address details = "123 Main St Noosa QLD 4567".
Proof.
  intros Htext Hfirst Hsecond Hsuf Hname Hd.
  apply details_of_page_val in Hd as (phone & _ & ->). simpl.
  unfold apply_override. rewrite Hname.
  cbn [extract_address address_patterns]. rewrite Hfirst.
  assert (∃ tail, match_at address_regex_2 ("123 Main St Noosa QLD 4567" +:+ suf)
                  = Some (Success "123 Main St Noosa QLD 4567"
                                  [(1, "123 Main St Noosa QLD 4567")] tail))
    as [tail Hat].
  { destruct Hsuf as [->|(c & suf' & -> & Hc)].
    - exists EmptyString. by vm_compute.
    - exists (String c suf').
      rewrite match_at_rejects by by apply number_chars_rejects.
      by vm_compute. }
  unfold re_search in *. rewrite Htext in *.
  rewrite search_from_skip by (intros m Hm; specialize (Hsecond m Hm); lia).
  rewrite (search_from_hit _ _ _ _ Hat).
  by vm_compute.
Qed.

(** ** The region lister: duplicates *)

Lemma foldl_dedupe_step (seen : gset string) (unique clinics : list clinic_link) :
  (foldl dedupe_step (seen, unique) clinics).2 = unique ++ first_seen seen clinics.
Proof.
  revert seen unique. induction clinics as [|c rest IH]; intros seen unique; simpl.
  - by rewrite app_nil_r.
  - unfold dedupe_step at 2. simpl. destruct (decide (cl_url c ∈ seen)).
    + apply IH.
    + rewrite IH. by rewrite <- app_assoc.
Qed.

Lemma remove_duplicates_first_seen (clinics : list clinic_link) :
  remove_duplicates clinics = first_seen ∅ clinics.
Proof. unfold remove_duplicates. by rewrite foldl_dedupe_step. Qed.

Lemma first_seen_sublist (seen : gset string) (clinics : list clinic_link) :
  sublist (first_seen seen clinics) clinics.
Proof.
  revert seen. induction clinics as [|c rest IH]; intros seen; simpl; [constructor|].
  destruct (decide (cl_url c ∈ seen)); by constructor.
Qed.

Lemma first_seen_elem (seen : gset string) (clinics : list clinic_link) (c : clinic_link) :
  c ∈ first_seen seen clinics ↔
  ∃ pre post, clinics = pre ++ c :: post
              ∧ cl_url c ∉ seen ∧ cl_url c ∉ map cl_url pre.
Proof.
  revert seen. induction clinics as [|d rest IH]; intros seen; simpl.
  - split; [by intros ?%elem_of_nil|]. intros (pre & post & H & _). by destruct pre.
  - destruct (decide (cl_url d ∈ seen)) as [Hd|Hd].
    + rewrite IH. split.
      * intros (pre & post & -> & Hs & Hp). exists (d :: pre), post.
        split; [done|]. split; [done|]. simpl. intros [Heq|Hin]%elem_of_cons; [|done].
        congruence.
      * intros (pre & post & Heq & Hs & Hp). destruct pre as [|d' pre].
        -- simpl in Heq. injection Heq as -> ->. done.
        -- simpl in Heq. injection Heq as -> ->. exists pre, post.
           split; [done|]. split; [done|]. intros Hin. apply Hp. simpl. by right.
    + rewrite elem_of_cons, IH. split.
      * intros [->|(pre & post & -> & Hs & Hp)].
        -- exists [], rest. split; [done|]. split; [done|]. simpl. by intros ?%elem_of_nil.
        -- exists (d :: pre), post. split; [done|]. split; [set_solver|].
           simpl. intros [Heq|Hin]%elem_of_cons; [|done]. set_solver.
      * intros (pre & post & Heq & Hs & Hp). destruct pre as [|d' pre].
        -- simpl in Heq. injection Heq as -> ->. by left.
        -- simpl in Heq. injection Heq as -> ->. right. exists pre, post.
           split; [done|]. simpl in Hp. rewrite not_elem_of_cons in Hp.
           destruct Hp as [Hne Hp]. split; [set_solver|done].
Qed.

Lemma first_seen_NoDup (seen : gset string) (clinics : list clinic_link) :
  NoDup (map cl_url (first_seen seen clinics)).
Proof.
  revert seen. induction clinics as [|c rest IH]; intros seen; simpl; [constructor|].
  destruct (decide (cl_url c ∈ seen)); [apply IH|]. simpl. constructor; [|apply IH].
  intros Hin. apply list_elem_of_In, in_map_iff in Hin as (d & Heq & Hd).
  apply list_elem_of_In, first_seen_elem in Hd as (_ & _ & _ & Hs & _).
  rewrite Heq in Hs. set_solver.
Qed.

(** What [extract_clinics_from_region] does once the fetcher has returned. *)
Lemma extract_clinics_from_region_unfold (E : env) (region : string) (w w1 : world)
    (content : option string) :
  get_page_content E (region_url region) (logged [EvPrint (SayFetchingRegion region)] w)
    = (Val content, w1) →
  extract_clinics_from_region E region w =
    if truthy (default EmptyString content) then
      match html_parser E (default EmptyString content) with
      | Val soup =>
          (Val (remove_duplicates (collect_links soup)),
           logged [EvPrint (SayFound (length (remove_duplicates (collect_links soup))))] w1)
      | Raise e => (Raise e, w1)
      end
    else (Val [], logged [EvPrint (Say "  Failed to fetch region page")] w1).
Proof.
  intros Hget. unfold extract_clinics_from_region.
  unfold bind at 1. unfold print at 1, emit at 1. cbv beta iota.
  fold (logged [EvPrint (SayFetchingRegion region)] w).
  rewrite (bind_val _ _ _ _ _ Hget).
  destruct (truthy (default EmptyString content)).
  - unfold bind at 1, lift at 1.
    destruct (html_parser E (default EmptyString content)) as [soup|e]; [|done].
    by unfold bind, print, emit, ret, logged.
  - by unfold bind, print, emit, ret, logged.
Qed.

(** The links up to the first one with a given URL, that link, and the
    links after it. *)
Lemma first_seen_split (seen : gset string) (pre post : list clinic_link) (c : clinic_link) :
  cl_url c ∉ seen →
  cl_url c ∉ map cl_url pre →
  ∃ seen',
    first_seen seen (pre ++ c :: post) = first_seen seen pre ++ c :: first_seen seen' post
    ∧ ∀ u, u ∈ seen' ↔ u ∈ seen ∨ u ∈ map cl_url pre ∨ u = cl_url c.
Proof.
  revert seen. induction pre as [|d pre IH]; intros seen Hseen Hpre.
  - simpl. destruct (decide (cl_url c ∈ seen)); [done|].
    exists ({[cl_url c]} ∪ seen). split; [done|]. intros u. set_solver.
  - simpl in Hpre. apply not_elem_of_cons in Hpre as [Hne Hpre]. simpl.
    destruct (decide (cl_url d ∈ seen)) as [Hd|Hd].
    + destruct (IH seen Hseen Hpre) as (seen' & -> & Hseen').
      exists seen'. split; [done|]. intros u. rewrite Hseen', elem_of_cons.
      split; [tauto|]. intros [?|[[->|?]|?]]; tauto.
    + destruct (IH ({[cl_url d]} ∪ seen)) as (seen' & -> & Hseen'); [set_solver|done|].
      exists seen'. split; [done|]. intros u. rewrite Hseen', elem_of_cons.
      set_solver.
Qed.

Lemma first_seen_order (pre mid post : list clinic_link) (c d : clinic_link) :
  cl_url c ∉ map cl_url pre →
  cl_url d ∉ map cl_url (pre ++ c :: mid) →
  ∃ l1 l2 l3, first_seen ∅ (pre ++ c :: mid ++ d :: post) = l1 ++ c :: l2 ++ d :: l3.
Proof.
  intros Hc Hd. rewrite map_app in Hd. simpl in Hd.
  rewrite elem_of_app, elem_of_cons in Hd.
  destruct (first_seen_split ∅ pre (mid ++ d :: post) c) as (seen' & -> & Hseen');
    [set_solver|done|].
  destruct (first_seen_split seen' mid post d) as (seen'' & -> & _).
  - rewrite Hseen'. set_solver.
  - tauto.
  - by eexists _, _, _.
Qed.

(** What the region lister returns is the list of links of the page it
    fetched and parsed, with the duplicates removed; no page gives no
    link. *)
Lemma extract_clinics_from_region_page (E : env) (region : string) (w w' : world)
    (links : list clinic_link) :
  extract_clinics_from_region E region w = (Val links, w') →
  ∃ content w1 discovered,
    get_page_content E (region_url region) (logged [EvPrint (SayFetchingRegion region)] w)
      = (Val content, w1)
    ∧ ((∃ markup soup,
          content = Some markup ∧ markup ≠ EmptyString
          ∧ html_parser E markup = Val soup
          ∧ discovered = collect_links soup)
       ∨ ((content = None ∨ content = Some EmptyString) ∧ discovered = []))
    ∧ links = remove_duplicates discovered.
Proof.
  intros Hrun.
  destruct (get_page_content_val E (region_url region)
              (logged [EvPrint (SayFetchingRegion region)] w))
    as (content & k & evs & Hget & _).
  rewrite (extract_clinics_from_region_unfold _ _ _ _ _ Hget) in Hrun.
  exists content, (after evs k (logged [EvPrint (SayFetchingRegion region)] w)).
  destruct content as [[|ch markup]|]; simpl in Hrun.
  - injection Hrun as <- _. exists []. split; [done|]. split; [|done]. right. eauto.
  - destruct (html_parser E (String ch markup)) as [soup|e] eqn:Hparse; [|done].
    injection Hrun as <- _. exists (collect_links soup).
    split; [done|]. split; [|done]. left. by eexists _, _.
  - injection Hrun as <- _. exists []. split; [done|]. split; [|done]. right. eauto.
Qed.

(** Claim C6. The links discovered in a region are those of the anchors of
    the region page, as fetched and parsed, in the order of the anchors
    (none when the page is not had). The list the region lister returns has
    no two entries with the same URL; it keeps of the discovered links
    exactly the first one of each URL, in the order of discovery: a kept
    link precedes every link that was first discovered after it. *)
Theorem region_links_unique_first_seen (E : env) (region : string) (w w' : world)
    (links : list clinic_link) :
  extract_clinics_from_region E region w = (Val links, w') →
  ∃ content w1 discovered,
    get_page_content E (region_url region) (logged [EvPrint (SayFetchingRegion region)] w)
      = (Val content, w1)
    ∧ ((∃ markup soup,
          content = Some markup ∧ markup ≠ EmptyString
          ∧ html_parser E markup = Val soup
          ∧ discovered = collect_links soup)
       ∨ ((content = None ∨ content = Some EmptyString) ∧ discovered = []))
    ∧ NoDup (map cl_url links)
    ∧ sublist links discovered
    ∧ (∀ c, c ∈ links ↔
            ∃ pre post, discovered = pre ++ c :: post ∧ cl_url c ∉ map cl_url pre)
    ∧ (∀ pre c mid d post,
         discovered = pre ++ c :: mid ++ d :: post →
         cl_url c ∉ map cl_url pre →
         cl_url d ∉ map cl_url (pre ++ c :: mid) →
         ∃ l1 l2 l3, links = l1 ++ c :: l2 ++ d :: l3).
Proof.
  intros Hrun.
  apply extract_clinics_from_region_page in Hrun
    as (content & w1 & discovered & Hget & Hpage & ->).
  exists content, w1, discovered. split; [done|]. split; [done|].
  rewrite remove_duplicates_first_seen. split; [apply first_seen_NoDup|].
  split; [apply first_seen_sublist|]. split.
  - intros c. rewrite first_seen_elem. split.
    + intros (pre & post & ? & _ & ?). eauto.
    + intros (pre & post & ? & ?). exists pre, post. set_solver.
  - intros pre c mid d post -> Hc Hd. by apply first_seen_order.
Qed.

(** ** The region lister: clinic URLs *)

Lemma any_char_append (p : ascii → bool) (s t : string) :
  any_char p (s +:+ t) = any_char p s || any_char p t.
Proof.
  induction s as [|c s IH]; [done|]. rewrite append_cons. simpl.
  by rewrite IH, orb_assoc.
Qed.

Lemma any_char_rev (p : ascii → bool) (s : string) :
  any_char p (String.rev s) = any_char p s.
Proof.
  induction s as [|c s IH]; [done|].
  rewrite rev_cons, any_char_append, IH. simpl.
  rewrite orb_false_r. apply orb_comm.
Qed.

Lemma any_char_ext (p q : ascii → bool) (s : string) :
  (∀ c, p c = q c) → any_char p s = any_char q s.
Proof. intros Hpq. induction s as [|c s IH]; [done|]. simpl. by rewrite Hpq, IH. Qed.

Lemma any_char_lstrip (p q : ascii → bool) (s : string) :
  any_char p s = false → any_char p (lstrip_by q s) = false.
Proof.
  induction s as [|c s IH]; [done|]. simpl.
  intros [Hc Hs]%orb_false_iff. destruct (q c); [by apply IH|]. simpl.
  by rewrite Hc, Hs.
Qed.

Lemma any_char_rstrip (p q : ascii → bool) (s : string) :
  any_char p s = false → any_char p (rstrip_by q s) = false.
Proof.
  induction s as [|c s IH]; [done|]. simpl.
  intros [Hc Hs]%orb_false_iff. specialize (IH Hs).
  destruct (rstrip_by q s) as [|d t].
  - destruct (q c); [done|]. simpl. by rewrite Hc.
  - simpl in *. by rewrite Hc, IH.
Qed.

Lemma any_char_strip (p : ascii → bool) (s : string) :
  any_char p s = false → any_char p (strip s) = false.
Proof. intros H. by apply any_char_rstrip, any_char_lstrip. Qed.

Lemma count_char_append (p : ascii → bool) (s t : string) :
  count_char p (s +:+ t) = count_char p s + count_char p t.
Proof.
  induction s as [|c s IH]; [done|]. rewrite append_cons. simpl. rewrite IH. lia.
Qed.

Lemma count_char_none (p : ascii → bool) (s : string) :
  any_char p s = false → count_char p s = 0.
Proof.
  induction s as [|c s IH]; [done|]. simpl.
  intros [-> Hs]%orb_false_iff. by rewrite IH.
Qed.

Lemma prefix_empty (s : string) : String.prefix EmptyString s = true.
Proof. by destruct s. Qed.

Lemma prefix_append (a t : string) : String.prefix a (a +:+ t) = true.
Proof.
  induction a as [|c a IH]; [apply prefix_empty|]. rewrite append_cons.
  cbn [String.prefix]. by destruct (ascii_dec c c).
Qed.

Lemma prefix_true_append (a t : string) :
  String.prefix a t = true → ∃ t', t = a +:+ t'.
Proof.
  revert t. induction a as [|c a IH]; intros t; [by exists t|].
  destruct t as [|d t]; [done|]. cbn [String.prefix].
  destruct (ascii_dec c d) as [->|]; [|done].
  intros [t' ->]%IH. by exists t'.
Qed.

Lemma prefix_slash (c : ascii) (s : string) : String.prefix "/" (String c s) = slash c.
Proof.
  cbn [String.prefix]. rewrite prefix_empty. unfold slash, is_char.
  destruct (ascii_dec "/" c) as [<-|Hne]; [done|].
  symmetry. by apply Ascii.eqb_neq.
Qed.

Lemma split_go_slash_pieces (cur s : string) :
  any_char slash cur = false →
  Forall (fun piece => any_char slash piece = false) (split_go "/" 0 cur s).
Proof.
  revert cur. induction s as [|c s IH]; intros cur Hcur.
  - simpl. constructor; [by rewrite any_char_rev|constructor].
  - cbn [split_go]. rewrite prefix_slash. destruct (slash c) eqn:Hc.
    + constructor; [by rewrite any_char_rev|]. by apply IH.
    + apply IH. simpl. by rewrite Hc.
Qed.

Lemma first_segment_no_slash (tail : string) :
  any_char slash (strip (hd EmptyString (split "/" tail))) = false.
Proof.
  apply any_char_strip. unfold split.
  destruct (split_go_slash_pieces EmptyString tail eq_refl) as [|piece rest Hp _]; done.
Qed.

Lemma in_run_seq (r1 r2 : regex) (s : string) (x : success) :
  In x (run (Seq r1 r2) s) →
  ∃ x1 x2, In x1 (run r1 s) ∧ In x2 (run r2 (s_rest x1))
           ∧ x = Success (s_text x1 +:+ s_text x2) (s_groups x1 ++ s_groups x2) (s_rest x2).
Proof.
  simpl. intros (x1 & H1 & Hin)%in_flat_map.
  apply in_map_iff in Hin as (x2 & <- & H2). eauto.
Qed.

(** Every match of the slug pattern has its group 1, free of slashes. *)
Lemma slug_group_no_slash (s : string) (x : success) :
  In x (run slug_regex s) →
  ∃ g, s_groups x = [(1, g)] ∧ any_char slash g = false.
Proof.
  change slug_regex
    with (Seq (lit "/our-clinics/") (Seq (Grp 1 (Rep (cls_not slash) 1)) (Cls slash))).
  intros (x1 & x2 & H1 & H2 & ->)%in_run_seq.
  apply in_run_seq in H2 as (y1 & y2 & Hy1 & Hy2 & ->).
  apply run_no_groups in H1; [|done]. apply run_no_groups in Hy2; [|done].
  simpl in Hy1. apply in_map_iff in Hy1 as (z & <- & Hz).
  apply in_map_iff in Hz as ([m t] & <- & Hmt).
  apply rep_sound in Hmt as (_ & Hm & _).
  simpl. rewrite H1, Hy2. simpl. exists m. split; [done|].
  rewrite <- Hm. apply any_char_ext. intros c. unfold cls_not. by rewrite negb_involutive.
Qed.

Lemma clinic_slug_no_slash (href slug : string) :
  clinic_slug href = Some slug → any_char slash slug = false.
Proof.
  unfold clinic_slug. destruct (re_search slug_regex href) as [m|] eqn:Hm.
  - apply search_from_found in Hm as (_ & t & Ht).
    apply head_In, slug_group_no_slash in Ht as (g & -> & Hg).
    simpl. by intros [= <-].
  - intros [= <-]. apply first_segment_no_slash.
Qed.

Lemma replace_go_skip (old new a rest : string) :
  replace_go old new (slen a) (a +:+ rest) = replace_go old new 0 rest.
Proof. induction a as [|c a IH]; [done|]. rewrite append_cons. simpl. apply IH. Qed.

Lemma replace_go_absent (old new s : string) :
  contains old s = false → replace_go old new 0 s = s.
Proof.
  induction s as [|c s IH]; [done|]. cbn [contains replace_go].
  intros [-> Hs]%orb_false_iff. by rewrite IH.
Qed.

Lemma replace_at_start (c : ascii) (old' new rest : string) :
  replace (String c old') new (String c old' +:+ rest)
  = new +:+ replace (String c old') new rest.
Proof.
  unfold replace. rewrite append_cons. cbn [replace_go].
  rewrite <- append_cons, prefix_append.
  replace (slen (String c old') - 1) with (slen old') by (simpl; lia).
  by rewrite replace_go_skip.
Qed.

Lemma prefix_to_remove_absent (slug : string) :
  any_char slash slug = false →
  contains prefix_to_remove (live_clinics +:+ slug +:+ "/") = false.
Proof.
  intros Hslug.
  assert (∀ t, any_char slash t = false →
               String.prefix prefix_to_remove (t +:+ "/") = false) as Hprefix.
  { intros t Ht. destruct (String.prefix _ _) eqn:Hp; [|done].
    apply prefix_true_append in Hp as [t' Hp].
    apply (f_equal (count_char slash)) in Hp.
    rewrite !count_char_append, (count_char_none _ _ Ht) in Hp.
    change (count_char slash prefix_to_remove) with 5 in Hp.
    change (count_char slash "/") with 1 in Hp. lia. }
  assert (contains prefix_to_remove (slug +:+ "/") = false) as Htail.
  { induction slug as [|c slug IH].
    - by vm_compute.
    - rewrite append_cons. cbn [contains]. rewrite <- append_cons.
      rewrite (Hprefix _ Hslug). simpl in Hslug.
      apply orb_false_iff in Hslug as [_ Hslug]. by apply IH. }
  unfold live_clinics. rewrite !append_cons, append_empty_l.
  unfold prefix_to_remove in *. cbn [contains String.prefix]. simpl. exact Htail.
Qed.

(** The clinic URL built for a slug, with the snapshot prefix taken out. *)
Lemma clinic_url_of_slug (slug : string) :
  any_char slash slug = false →
  replace prefix_to_remove EmptyString (build_clinic_url ("our-clinics/" +:+ slug +:+ "/"))
  = live_clinics +:+ slug +:+ "/".
Proof.
  intros Hslug.
  change (build_clinic_url ("our-clinics/" +:+ slug +:+ "/"))
    with (prefix_to_remove +:+ (live_clinics +:+ slug +:+ "/")).
  unfold prefix_to_remove at 1 2. rewrite replace_at_start, append_empty_l.
  unfold replace. by apply replace_go_absent, prefix_to_remove_absent.
Qed.



(** ** The round trip of the output file *)

Lemma special_false (c : ascii) :
  special c = false →
  Ascii.eqb c "," = false ∧ Ascii.eqb c dquote = false ∧ is_newline c = false.
Proof.
  unfold special, one_of, is_newline. simpl.
  intros H. repeat (apply orb_false_iff in H as [H ?]). by repeat split; [..|apply orb_false_iff].
Qed.

Lemma line_ends_plain (c : ascii) (rest : string) :
  rest ≠ EmptyString → is_newline c = false → line_ends c rest = false.
Proof.
  intros Hrest [H1 H2]%orb_false_iff. destruct rest as [|d rest]; [done|].
  simpl. by rewrite H1, H2.
Qed.

Lemma append_nonempty (s t : string) (c : ascii) : s +:+ String c t ≠ EmptyString.
Proof. by destruct s. Qed.

Lemma end_of_line_quoted (fld : string) (fields : list string) (rows : list (list string)) :
  end_of_line (Reader IN_QUOTED_FIELD fld fields rows)
  = Val (Reader IN_QUOTED_FIELD fld fields rows).
Proof. done. Qed.

(** Inside a quoted field: the doubled body and the closing quote. *)
Lemma read_quoted_body (f fld rest : string) (fields : list string)
    (rows : list (list string)) :
  rest ≠ EmptyString →
  read_chars (Reader IN_QUOTED_FIELD fld fields rows)
             (double_quotes f +:+ String dquote rest)
  = read_chars (Reader QUOTE_IN_QUOTED_FIELD (String.rev_app f fld) fields rows) rest.
Proof.
  intros Hrest. revert fld. induction f as [|c f IH]; intros fld.
  - rewrite append_empty_l. cbn [read_chars]. unfold process_char. simpl.
    by rewrite line_ends_plain.
  - cbn [double_quotes]. destruct (Ascii.eqb c dquote) eqn:Hc.
    + apply Ascii.eqb_eq in Hc as ->. rewrite !append_cons.
      cbn [read_chars]. unfold process_char at 1. simpl.
      rewrite line_ends_plain by (done || apply append_nonempty). simpl.
      apply IH.
    + rewrite append_cons. cbn [read_chars]. unfold process_char at 1. simpl.
      rewrite Hc. simpl. unfold add_char. simpl.
      destruct (line_ends c _); [rewrite end_of_line_quoted|]; simpl; apply IH.
Qed.

(** An unquoted field under way. *)
Lemma read_plain_chars (f fld rest : string) (fields : list string)
    (rows : list (list string)) :
  rest ≠ EmptyString → any_char special f = false →
  read_chars (Reader IN_FIELD fld fields rows) (f +:+ rest)
  = read_chars (Reader IN_FIELD (String.rev_app f fld) fields rows) rest.
Proof.
  intros Hrest. revert fld. induction f as [|c f IH]; intros fld Hf; [done|].
  simpl in Hf. apply orb_false_iff in Hf as [Hc Hf].
  apply special_false in Hc as (Hcomma & Hquote & Hnl).
  rewrite append_cons. cbn [read_chars]. unfold process_char. simpl.
  rewrite Hnl, Hcomma. simpl.
  rewrite line_ends_plain by (done || by destruct f). simpl.
  by apply IH.
Qed.

(** A field and the character after it, a comma or the carriage return of
    the line terminator. *)
Lemma read_field (st : reader_state) (d : ascii) (f rest : string)
    (fields : list string) (rows : list (list string)) :
  (st = START_FIELD ∨ st = START_RECORD ∧ d = ","%char) →
  (d = ","%char ∨ d = "013"%char) →
  line_ends d rest = false →
  read_chars (Reader st EmptyString fields rows) (csv_field f +:+ String d rest)
  = read_chars (Reader (if Ascii.eqb d "," then START_FIELD else EAT_CRNL)
                       EmptyString (fields ++ [f]) rows) rest.
Proof.
  intros Hst Hd Hends. unfold csv_field.
  destruct (any_char special f) eqn:Hf.
  - rewrite append_cons.
    assert (read_chars (Reader st EmptyString fields rows)
              (String dquote ((double_quotes f +:+ String dquote EmptyString) +:+ String d rest))
            = read_chars (Reader IN_QUOTED_FIELD EmptyString fields rows)
                ((double_quotes f +:+ String dquote EmptyString) +:+ String d rest)) as ->.
    { cbn [read_chars].
      rewrite line_ends_plain by (done || (rewrite append_assoc; apply append_nonempty)).
      by destruct Hst as [->|[-> _]]. }
    rewrite append_assoc, append_cons, append_empty_l.
    rewrite read_quoted_body by done.
    cbn [read_chars]. rewrite Hends. rewrite rev_app_spec, append_empty_r.
    unfold process_char. simpl.
    destruct Hd as [->| ->]; simpl; unfold save_field; simpl; by rewrite rev_involutive.
  - destruct f as [|c f].
    + rewrite append_empty_l. cbn [read_chars]. rewrite Hends.
      destruct Hd as [->| ->]; destruct Hst as [->|[-> ?]]; done.
    + simpl in Hf. apply orb_false_iff in Hf as [Hc Hf].
      apply special_false in Hc as (Hcomma & Hquote & Hnl).
      rewrite append_cons.
      assert (read_chars (Reader st EmptyString fields rows) (String c (f +:+ String d rest))
              = read_chars (Reader IN_FIELD (String c EmptyString) fields rows)
                           (f +:+ String d rest)) as ->.
      { cbn [read_chars]. rewrite line_ends_plain by (done || apply append_nonempty).
        unfold process_char.
        destruct Hst as [->|[-> _]]; simpl; by rewrite Hnl, Hquote, Hcomma. }
      rewrite read_plain_chars by done.
      cbn [read_chars]. rewrite Hends. rewrite rev_app_spec.
      unfold process_char. simpl.
      destruct Hd as [->| ->]; simpl; unfold save_field; simpl;
        by rewrite <- rev_cons, rev_involutive.
Qed.

Lemma read_fields (fs read : list string) (rows : list (list string)) (rest : string) :
  fs ≠ [] →
  read_chars (Reader START_FIELD EmptyString read rows)
             (join "," (map csv_field fs) +:+ crlf +:+ rest)
  = read_chars (Reader START_RECORD EmptyString [] (rows ++ [read ++ fs])) rest.
Proof.
  revert read. induction fs as [|f fs IH]; intros read Hne; [done|].
  destruct fs as [|g fs].
  - change (join "," (map csv_field [f]) +:+ crlf +:+ rest)
      with (csv_field f +:+ String "013" (String "010" rest)).
    rewrite read_field; [|by left|by right|done].
    cbn [read_chars]. unfold process_char. simpl.
    assert (line_ends "010" rest = true) as -> by by destruct rest.
    done.
  - change (join "," (map csv_field (f :: g :: fs)) +:+ crlf +:+ rest)
      with ((csv_field f +:+ String "," (join "," (map csv_field (g :: fs)))) +:+ crlf +:+ rest).
    rewrite append_assoc, append_cons.
    rewrite read_field; [|by left|by left|].
    + simpl Ascii.eqb. cbv iota. rewrite IH by done.
      by rewrite <- app_assoc.
    + apply line_ends_plain; [|done]. unfold crlf. rewrite append_cons. apply append_nonempty.
Qed.

Lemma csv_row_two (f g : string) (fs : list string) :
  csv_row (f :: g :: fs)
  = csv_field f +:+ String "," (join "," (map csv_field (g :: fs)) +:+ crlf).
Proof.
  unfold csv_row.
  change (join "," (map csv_field (f :: g :: fs)))
    with (csv_field f +:+ String "," (join "," (map csv_field (g :: fs)))).
  destruct (csv_field f); by rewrite ?append_assoc, ?append_cons.
Qed.

Lemma read_row (fs : list string) (rows : list (list string)) (rest : string) :
  2 ≤ length fs →
  read_chars (Reader START_RECORD EmptyString [] rows) (csv_row fs +:+ rest)
  = read_chars (Reader START_RECORD EmptyString [] (rows ++ [fs])) rest.
Proof.
  destruct fs as [|f [|g fs]]; [simpl; lia..|]. intros _.
  rewrite csv_row_two, append_assoc, append_cons, append_assoc.
  rewrite read_field; [|by right|by left|].
  - simpl Ascii.eqb. cbv iota. by rewrite read_fields.
  - apply line_ends_plain; [|done]. unfold crlf. rewrite append_cons. apply append_nonempty.
Qed.

Lemma read_rows (written rows : list (list string)) :
  Forall (fun fs => 2 ≤ length fs) written →
  read_chars (Reader START_RECORD EmptyString [] rows) (concat_all (map csv_row written))
  = Val (Reader START_RECORD EmptyString [] (rows ++ written)).
Proof.
  intros Hall. revert rows. induction Hall as [|fs written Hfs _ IH]; intros rows.
  - by rewrite app_nil_r.
  - change (concat_all (map csv_row (fs :: written)))
      with (csv_row fs +:+ concat_all (map csv_row written)).
    rewrite read_row by done. rewrite IH. by rewrite <- app_assoc.
Qed.

(** Claim C10. The output written for a list of records starts with the
    header row "Name of Clinic,Address,Email,Phone,Services"; read back, it
    gives the header and then, for each record in order, a row of five
    fields: the name, address, email, phone and services of the record, as
    many rows as records. That output is what the run leaves in the output
    file when there is a record. *)
Theorem output_file_round_trip (records : list clinic_record) :
  (∃ body, csv_text records
           = "Name of Clinic,Address,Email,Phone,Services" +:+ crlf +:+ body)
  ∧ (∃ rows,
       csv_read (csv_text records)
       = Val (["Name of Clinic"; "Address"; "Email"; "Phone"; "Services"] :: rows)
       ∧ length rows = length records
       ∧ rows = map (fun r => [r_name r; r_address r; r_email r; r_phone r; r_services r])
                    records
       ∧ ∀ i r, records !! i = Some r →
                rows !! i = Some [r_name r; r_address r; r_email r; r_phone r; r_services r])
  ∧ ∀ n m w, records ≠ [] →
      w_files (save_results (Tally records n m) w).2 !! csv_file = Some (csv_text records).
Proof.
  split; [by eexists|]. split.
  - exists (map (fun r => [r_name r; r_address r; r_email r; r_phone r; r_services r])
                records).
    split; [|split; [apply length_map|split; [done|]]].
    + unfold csv_read, csv_text.
      replace (map (fun r => csv_row (row_of_record r)) records)
        with (map csv_row (map row_of_record records)) by by rewrite map_map.
      change (csv_row fieldnames +:+ concat_all (map csv_row (map row_of_record records)))
        with (concat_all (map csv_row (fieldnames :: map row_of_record records))).
      rewrite read_rows; [done|].
      constructor; [simpl; lia|]. apply Forall_forall. intros fs Hin.
      apply list_elem_of_In, in_map_iff in Hin as (r & <- & _). simpl. lia.
    + intros i r Hr. by rewrite list_lookup_fmap, Hr.
  - intros n m w Hne. unfold save_results. simpl clinic_data.
    destruct records as [|r records]; [done|].
    unfold bind, write_file, print, emit. simpl. apply lookup_insert_eq.
Qed.

(** ** More on the fetcher *)

Lemma take_str_length (n : nat) (s : string) : slen (take_str n s) ≤ n.
Proof.
  unfold take_str. revert s. induction n as [|n IH]; intros s.
  - by destruct s.
  - destruct s as [|c s]; simpl; [lia|]. specialize (IH s). lia.
Qed.

Lemma seq_max_retries_ok :
  seq 0 max_retries ≠ [] ∧ last (seq 0 max_retries) = Some (max_retries - 1)
  ∧ Forall (fun a => a < max_retries) (seq 0 max_retries) ∧ NoDup (seq 0 max_retries).
Proof.
  split; [done|]. split; [done|]. split; [|apply NoDup_seq].
  apply Forall_forall. intros a Ha. apply elem_of_seq in Ha. lia.
Qed.

Lemma get_page_content_three_failures (E : env) (url : string) (w : world)
    (e0 e1 e2 : exn) :
  net E (w_requests w) url = Failed e0 →
  net E (w_requests w + 1) url = Failed e1 →
  net E (w_requests w + 2) url = Failed e2 →
  get_page_content E url w
  = (Val None,
     after [EvGet url; EvSleep 1000; EvGet url; EvSleep 1000; EvGet url;
            EvPrint (SayErrorFetchingUrl url (take_str 50 (exn_msg e2)))] 3 w).
Proof.
  intros H0 H1 H2.
  unfold get_page_content. change (seq 0 max_retries) with [0; 1; 2].
  rewrite fetch_attempts_cons, H0. change (0 <? max_retries - 1) with true. cbv iota.
  rewrite fetch_attempts_cons. unfold after at 2 3. simpl w_requests. rewrite H1.
  change (1 <? max_retries - 1) with true. cbv iota.
  rewrite fetch_attempts_cons. unfold after at 2 3. simpl w_requests.
  replace (w_requests w + 1 + 1) with (w_requests w + 2) by lia. rewrite H2.
  change (2 <? max_retries - 1) with false. cbv iota.
  unfold after. simpl. f_equal. f_equal; [lia|]. by rewrite <- !app_assoc.
Qed.

(** When three attempts in a row fail, the fetcher has made exactly three
    requests with two pauses, and what it reports is the message of the
    third exception, cut to its first 50 characters. *)
Theorem fetcher_reports_last_error (E : env) (url : string) (w : world) (e0 e1 e2 : exn) :
  net E (w_requests w) url = Failed e0 →
  net E (w_requests w + 1) url = Failed e1 →
  net E (w_requests w + 2) url = Failed e2 →
  get_page_content E url w
  = (Val None,
     after [EvGet url; EvSleep 1000; EvGet url; EvSleep 1000; EvGet url;
            EvPrint (SayErrorFetchingUrl url (take_str 50 (exn_msg e2)))] 3 w)
  ∧ slen (take_str 50 (exn_msg e2)) ≤ 50.
Proof.
  intros H0 H1 H2. split; [|apply take_str_length].
  by apply (get_page_content_three_failures E url w e0 e1 e2).
Qed.

(** ** More on the region lister *)

(** A region whose page cannot be fetched, or comes back empty, gives the
    empty list and the line "Failed to fetch region page"; the parser is not
    consulted, so nothing is raised. *)
Theorem region_lister_failed_fetch (E : env) (region : string) (w : world) :
  ((∀ i, i < 3 → ∃ e, net E (w_requests w + i) (region_url region) = Failed e) →
   ∃ err,
     extract_clinics_from_region E region w
     = (Val [],
        after [EvPrint (SayFetchingRegion region);
               EvGet (region_url region); EvSleep 1000;
               EvGet (region_url region); EvSleep 1000;
               EvGet (region_url region);
               EvPrint (SayErrorFetchingUrl (region_url region) err);
               EvPrint (Say "  Failed to fetch region page")] 3 w))
  ∧ (net E (w_requests w) (region_url region) = Returned EmptyString →
     extract_clinics_from_region E region w
     = (Val [],
        after [EvPrint (SayFetchingRegion region); EvGet (region_url region);
               EvPrint (Say "  Failed to fetch region page")] 1 w)).
Proof.
  split.
  - intros Hfail.
    destruct (Hfail 0) as [e0 H0]; [lia|]. destruct (Hfail 1) as [e1 H1]; [lia|].
    destruct (Hfail 2) as [e2 H2]; [lia|]. rewrite Nat.add_0_r in H0.
    exists (take_str 50 (exn_msg e2)).
    pose proof (get_page_content_three_failures E (region_url region)
                  (logged [EvPrint (SayFetchingRegion region)] w) e0 e1 e2 H0 H1 H2)
      as Hget.
    rewrite (extract_clinics_from_region_unfold _ _ _ _ _ Hget).
    unfold logged, after. simpl. by rewrite <- !app_assoc.
  - intros Hempty.
    assert (get_page_content E (region_url region)
              (logged [EvPrint (SayFetchingRegion region)] w)
            = (Val (Some EmptyString),
               after [EvGet (region_url region)] 1
                     (logged [EvPrint (SayFetchingRegion region)] w))) as Hget.
    { unfold get_page_content. change (seq 0 max_retries) with [0; 1; 2].
      rewrite fetch_attempts_cons. simpl w_requests. by rewrite Hempty. }
    rewrite (extract_clinics_from_region_unfold _ _ _ _ _ Hget).
    unfold logged, after. simpl. by rewrite <- !app_assoc.
Qed.

Lemma list_regions_val (E : env) (regions : list string)
    (all_clinics : list clinic_link) (w : world) :
  ∃ links w',
    list_regions E regions all_clinics w = (Val links, w')
    ∧ all_clinics `prefix_of` links.
Proof.
  revert all_clinics w. induction regions as [|region rest IH]; intros all_clinics w.
  - by exists all_clinics, w.
  - cbn [list_regions]. unfold bind at 1. unfold try_except at 1. unfold bind at 1.
    destruct (extract_clinics_from_region E region w) as [[clinics|e] w1].
    + unfold bind at 1. unfold sleep, emit, ret. cbv beta iota.
      destruct (IH (all_clinics ++ clinics)
                   (World (w_requests w1) (w_trace w1 ++ [EvSleep 500]) (w_files w1)))
        as (links & w' & Hrun & Hpre).
      exists links, w'. split; [done|].
      etrans; [|done]. by apply prefix_app_r.
    + unfold bind at 1. unfold print, emit, ret. cbv beta iota.
      destruct (IH all_clinics
                   (World (w_requests w1)
                      (w_trace w1 ++ [EvPrint (SayErrorInRegion region (take_str 50 (exn_msg e)))])
                      (w_files w1)))
        as (links & w' & Hrun & Hpre).
      by exists links, w'.
Qed.

(** The loop over the regions never raises: whatever a region's page or the
    parser does, the links gathered so far are kept and the loop goes on. *)
Theorem listing_never_raises (E : env) (regions : list string)
    (all_clinics : list clinic_link) (w : world) :
  ∃ links w',
    list_regions E regions all_clinics w = (Val links, w')
    ∧ all_clinics `prefix_of` links.
Proof. apply list_regions_val. Qed.

(** ** Requests *)

Lemma costs_weaken {A} (n m : nat) (c : M A) : n ≤ m → costs n c → costs m c.
Proof. intros Hnm Hc w. specialize (Hc w). lia. Qed.

Lemma costs_ret {A} (a : A) : costs 0 (ret a).
Proof. intros w. simpl. lia. Qed.

Lemma costs_lift {A} (x : outcome A) : costs 0 (lift x).
Proof. intros w. simpl. lia. Qed.

Lemma costs_emit (ev : event) : costs 0 (emit ev).
Proof. intros w. simpl. lia. Qed.

Lemma costs_http_get (E : env) (url : string) : costs 1 (http_get E url).
Proof. intros w. simpl. lia. Qed.

Lemma costs_bind {A B} (n m : nat) (c : M A) (k : A → M B) :
  costs n c → (∀ a, costs m (k a)) → costs (n + m) (bind c k).
Proof.
  intros Hc Hk w. unfold bind. specialize (Hc w).
  destruct (c w) as [[a|e] w1]; simpl in *; [|lia].
  specialize (Hk a w1). lia.
Qed.

Lemma costs_try {A} (n m : nat) (c : M A) (h : exn → M A) :
  costs n c → (∀ e, costs m (h e)) → costs (n + m) (try_except c h).
Proof.
  intros Hc Hh w. unfold try_except. specialize (Hc w).
  destruct (c w) as [[a|e] w1]; simpl in *; [lia|].
  specialize (Hh e w1). lia.
Qed.

Lemma costs_get_page_content (E : env) (url : string) : costs 3 (get_page_content E url).
Proof.
  intros w. destruct seq_max_retries_ok as (H1 & H2 & H3 & H4).
  destruct (fetch_attempts_spec E url (seq 0 max_retries) w H1 H2 H3 H4)
    as (result & k & report & Heq & Hk & _).
  unfold get_page_content. rewrite Heq. simpl in *. lia.
Qed.

Lemma costs_extract_clinics_from_region (E : env) (region : string) :
  costs 3 (extract_clinics_from_region E region).
Proof.
  unfold extract_clinics_from_region.
  apply (costs_bind 0 3); [apply costs_emit|]. intros _.
  apply (costs_bind 3 0); [apply costs_get_page_content|]. intros content.
  destruct (truthy _).
  - apply (costs_bind 0 0); [apply costs_lift|]. intros soup.
    apply (costs_bind 0 0); [apply costs_emit|]. intros _. apply costs_ret.
  - apply (costs_bind 0 0); [apply costs_emit|]. intros _. apply costs_ret.
Qed.

Lemma costs_extract_clinic_details (E : env) (url name : string) :
  costs 3 (extract_clinic_details E url name).
Proof.
  unfold extract_clinic_details.
  apply (costs_bind 3 0).
  - apply (costs_try 3 0).
    + apply (costs_bind 3 0); [apply costs_get_page_content|]. intros ?. apply costs_ret.
    + intros e. apply (costs_bind 0 0); [apply costs_emit|]. intros _. apply costs_ret.
  - intros [content|]; [|apply costs_ret].
    apply (costs_bind 0 0).
    + apply (costs_try 0 0).
      * apply (costs_bind 0 0); [apply costs_lift|]. intros ?. apply costs_ret.
      * intros e. apply (costs_bind 0 0); [apply costs_emit|]. intros _. apply costs_ret.
    + intros [soup|]; [|apply costs_ret].
      apply (costs_bind 0 0); [apply costs_lift|]. intros ?. apply costs_ret.
Qed.

Lemma costs_list_regions (E : env) (regions : list string) (all_clinics : list clinic_link) :
  costs (3 * length regions) (list_regions E regions all_clinics).
Proof.
  revert all_clinics. induction regions as [|region rest IH]; intros all_clinics.
  - apply costs_ret.
  - cbn [list_regions]. apply (costs_weaken (3 + 3 * length rest)); [simpl; lia|].
    apply costs_bind; [|intros ?; apply IH].
    apply (costs_try 3 0).
    + apply (costs_bind 3 0); [apply costs_extract_clinics_from_region|]. intros ?.
      apply (costs_bind 0 0); [apply costs_emit|]. intros _. apply costs_ret.
    + intros e. apply (costs_bind 0 0); [apply costs_emit|]. intros _. apply costs_ret.
Qed.

Lemma costs_detail_clinics (E : env) (total i : nat) (clinics : list clinic_link)
    (acc : tally) :
  costs (3 * length clinics) (detail_clinics E total i clinics acc).
Proof.
  revert i acc. induction clinics as [|clinic rest IH]; intros i acc.
  - apply costs_ret.
  - cbn [detail_clinics]. apply (costs_weaken (0 + (3 + (0 + (0 + 3 * length rest)))));
      [simpl; lia|].
    apply costs_bind; [apply costs_emit|]. intros _.
    apply costs_bind; [apply costs_extract_clinic_details|]. intros details.
    apply costs_bind.
    + destruct details; (apply (costs_bind 0 0); [apply costs_emit|]); intros _;
        apply costs_ret.
    + intros acc'. apply costs_bind; [apply costs_emit|]. intros _. apply IH.
Qed.

Lemma costs_save_results (t : tally) : costs 0 (save_results t).
Proof.
  unfold save_results. destruct (clinic_data t); [apply costs_emit|].
  apply (costs_bind 0 0); [intros w; simpl; lia|]. intros _.
  repeat (apply (costs_bind 0 0); [apply costs_emit|]; intros _). apply costs_emit.
Qed.

(** What [collect_details] does once the regions have been listed. *)
Lemma collect_details_unfold (E : env) (w w1 : world) (all_clinics : list clinic_link) :
  list_regions E REGIONS []
    (logged [EvPrint (Say ("Starting clinic data scraper..." +:+ newline))] w)
    = (Val all_clinics, w1) →
  collect_details E w
  = detail_clinics E (length all_clinics) 1 all_clinics (Tally [] 0 0)
      (logged [EvPrint (SayTotal (length all_clinics)); EvPrint (SayLinks all_clinics);
               EvPrint (Say ("Now fetching individual clinic details..." +:+ newline))] w1).
Proof.
  intros Hlist. unfold collect_details.
  unfold bind at 1. unfold print at 1, emit at 1. cbv beta iota.
  fold (logged [EvPrint (Say ("Starting clinic data scraper..." +:+ newline))] w).
  rewrite (bind_val _ _ _ _ _ Hlist).
  unfold bind at 1. unfold print at 1, emit at 1. cbv beta iota.
  unfold bind at 1. unfold print at 1, emit at 1. cbv beta iota.
  unfold bind at 1. unfold print at 1, emit at 1. cbv beta iota.
  unfold logged. simpl. by rewrite <- !app_assoc.
Qed.

(** A run makes at most three requests for each region and three for each
    clinic link the regions gave. *)
Theorem run_request_bound (E : env) (w : world) :
  ∃ all_clinics w1,
    list_regions E REGIONS []
      (logged [EvPrint (Say ("Starting clinic data scraper..." +:+ newline))] w)
      = (Val all_clinics, w1)
    ∧ w_requests (scrape_all_clinics E w).2
      ≤ w_requests w + 3 * (length REGIONS + length all_clinics).
Proof.
  destruct (list_regions_val E REGIONS []
              (logged [EvPrint (Say ("Starting clinic data scraper..." +:+ newline))] w))
    as (all_clinics & w1 & Hlist & _).
  exists all_clinics, w1. split; [done|].
  pose proof (costs_list_regions E REGIONS []
                (logged [EvPrint (Say ("Starting clinic data scraper..." +:+ newline))] w))
    as Hc1.
  rewrite Hlist in Hc1. simpl w_requests in Hc1. cbn [snd] in Hc1.
  unfold scrape_all_clinics, bind.
  rewrite (collect_details_unfold _ _ _ _ Hlist).
  set (w2 := logged _ w1).
  pose proof (costs_detail_clinics E (length all_clinics) 1 all_clinics (Tally [] 0 0) w2)
    as Hc2.
  assert (w_requests w2 = w_requests w1) as Hw2 by done.
  destruct (detail_clinics E (length all_clinics) 1 all_clinics (Tally [] 0 0) w2)
    as [[t|e] w3]; cbn [snd] in *.
  - pose proof (costs_save_results t w3). lia.
  - lia.
Qed.

(** ** The phone number, in full *)

Lemma lstrip_by_head (p : ascii → bool) (s : string) :
  lstrip_by p s = EmptyString ∨ ∃ c t, lstrip_by p s = String c t ∧ p c = false.
Proof.
  induction s as [|c s IH]; [by left|]. simpl.
  destruct (p c) eqn:Hc; [done|]. right. eauto.
Qed.

Lemma rstrip_by_idempotent (p : ascii → bool) (s : string) :
  rstrip_by p (rstrip_by p s) = rstrip_by p s.
Proof.
  induction s as [|c s IH]; [done|]. simpl.
  destruct (rstrip_by p s) as [|d r] eqn:Hr.
  - destruct (p c) eqn:Hc; [done|]. simpl. by rewrite Hc.
  - cbn [rstrip_by]. cbn [rstrip_by] in IH. by rewrite IH.
Qed.

Lemma strip_idempotent (s : string) : strip (strip s) = strip s.
Proof.
  unfold strip. destruct (lstrip_by_head is_space s) as [->|(c & t & -> & Hc)]; [done|].
  assert (∃ t', rstrip_by is_space (String c t) = String c t') as [t' Ht'].
  { simpl. destruct (rstrip_by is_space t); [rewrite Hc|]; eauto. }
  rewrite Ht'. simpl lstrip_by. rewrite Hc. rewrite <- Ht'. apply rstrip_by_idempotent.
Qed.

(** A text that has no junk in it is left as it is. *)
Lemma sub_junk_identity (s : string) :
  any_char (cls_not phone_chars) s = false →
  re_sub phone_junk (fun _ => EmptyString) s = s.
Proof.
  unfold re_sub. induction s as [|c s IH]; [done|]. simpl any_char.
  intros [Hc Hs]%orb_false_iff. cbn [sub_go]. unfold match_at. cbn [run phone_junk].
  rewrite Hc. cbn [head]. by rewrite IH.
Qed.

(** Every match of the first phone pattern has its group 1, made of phone
    characters only. *)
Lemma phone_pattern_1_group (s : string) (x : success) :
  In x (run (p_regex phone_pattern_1) s) →
  ∃ g, s_groups x = [(1, g)] ∧ any_char (cls_not phone_chars) g = false.
Proof.
  change (p_regex phone_pattern_1)
    with (Seq (lit_ci "Call") (Seq (Rep is_space 1) (Grp 1 (Rep phone_chars 1)))).
  intros (x1 & x2 & H1 & H2 & ->)%in_run_seq.
  apply in_run_seq in H2 as (y1 & y2 & Hy1 & Hy2 & ->).
  apply run_no_groups in H1; [|done]. apply run_no_groups in Hy1; [|done].
  simpl in Hy2. apply in_map_iff in Hy2 as (z & <- & Hz).
  apply in_map_iff in Hz as ([m t] & <- & Hmt).
  apply rep_sound in Hmt as (_ & Hm & _).
  simpl. rewrite H1, Hy1. simpl. by exists m.
Qed.

Lemma phone_group_first (text_content : string) (m : match_obj) :
  re_search (p_regex phone_pattern_1) text_content = Some m →
  phone_group phone_pattern_1 m = Val (group_text 1 (m_found m))
  ∧ any_char (cls_not phone_chars) (group_text 1 (m_found m)) = false.
Proof.
  intros Hm. apply search_from_found in Hm as (Hn & t & Ht).
  apply head_In, phone_pattern_1_group in Ht as (g & Hg & Hclean).
  unfold phone_group, m_group, group_text.
  change (contains "(" (p_source phone_pattern_1)) with true. cbv iota.
  rewrite Hn, Hg. done.
Qed.

Lemma extract_phone_cons (pat : pattern) (rest : list pattern) (text_content : string) :
  extract_phone (pat :: rest) text_content =
    match re_search (p_regex pat) text_content with
    | Some phone_match =>
        obind (phone_group pat phone_match) (fun phone_text =>
          if truthy (clean_phone phone_text) && (5 <? slen (clean_phone phone_text))
          then Val (clean_phone phone_text)
          else extract_phone rest text_content)
    | None => extract_phone rest text_content
    end.
Proof. done. Qed.

Lemma extract_phone_cases (text_content : string) :
  extract_phone phone_patterns text_content =
    let second :=
      match re_search (p_regex phone_pattern_2) text_content with
      | Some _ => Raise (Exn "IndexError" "no such group")
      | None => Val EmptyString
      end in
    match re_search (p_regex phone_pattern_1) text_content with
    | Some m =>
        if 5 <? slen (clean_phone (group_text 1 (m_found m)))
        then Val (clean_phone (group_text 1 (m_found m)))
        else second
    | None => second
    end.
Proof.
  assert (extract_phone [phone_pattern_2] text_content =
          match re_search (p_regex phone_pattern_2) text_content with
          | Some _ => Raise (Exn "IndexError" "no such group")
          | None => Val EmptyString
          end) as Hsecond.
  { destruct (re_search (p_regex phone_pattern_2) text_content) as [m|] eqn:Hm.
    - by apply (second_phone_pattern_raises _ m).
    - cbn [extract_phone]. by rewrite Hm. }
  cbv zeta. rewrite <- Hsecond. unfold phone_patterns.
  rewrite (extract_phone_cons phone_pattern_1).
  destruct (re_search (p_regex phone_pattern_1) text_content) as [m|] eqn:Hm; [|done].
  destruct (phone_group_first _ _ Hm) as [-> _]. cbn [obind].
  destruct (5 <? slen (clean_phone (group_text 1 (m_found m)))) eqn:Hlen.
  - apply Nat.ltb_lt in Hlen.
    destruct (clean_phone (group_text 1 (m_found m))); [simpl in Hlen; lia|done].
  - by rewrite andb_false_r.
Qed.

(** The phone loop, case by case: a match of the first pattern whose
    cleaned group has more than 5 characters is the phone number; failing
    that, a match of the second pattern raises [IndexError]; failing both,
    the phone number is empty. *)
Theorem phone_loop_outcomes (text_content : string) :
  extract_phone phone_patterns text_content =
    let second :=
      match re_search (p_regex phone_pattern_2) text_content with
      | Some _ => Raise (Exn "IndexError" "no such group")
      | None => Val EmptyString
      end in
    match re_search (p_regex phone_pattern_1) text_content with
    | Some m =>
        if 5 <? slen (clean_phone (group_text 1 (m_found m)))
        then Val (clean_phone (group_text 1 (m_found m)))
        else second
    | None => second
    end.
Proof. apply extract_phone_cases. Qed.

(** The Phone field of a returned record is empty or: longer than 5
    characters, made of digits, white space, parentheses, hyphens and plus
    signs only, without white space at either end; it is then the group of
    the first phone pattern's match, stripped. *)
Theorem phone_field_shape (soup : node) (name : string) (details : clinic_record) :
  details_of_page soup name = Val details →
  r_phone details = EmptyString
  ∨ (5 < slen (r_phone details)
     ∧ any_char (cls_not phone_chars) (r_phone details) = false
     ∧ strip (r_phone details) = r_phone details
     ∧ ∃ m, re_search (p_regex phone_pattern_1) (get_text soup) = Some m
            ∧ r_phone details = strip (group_text 1 (m_found m))).
Proof.
  intros Hd. apply details_of_page_val in Hd as (phone & Hphone & ->). simpl.
  rewrite extract_phone_cases in Hphone. cbv zeta in Hphone.
  assert (match re_search (p_regex phone_pattern_2) (get_text soup) with
          | Some _ => Raise (Exn "IndexError" "no such group")
          | None => Val EmptyString
          end = Val phone → phone = EmptyString) as Hsecond.
  { destruct (re_search (p_regex phone_pattern_2) (get_text soup)); [done|].
    by intros [= <-]. }
  destruct (re_search (p_regex phone_pattern_1) (get_text soup)) as [m|] eqn:Hm;
    [|left; by apply Hsecond].
  destruct (5 <? slen (clean_phone (group_text 1 (m_found m)))) eqn:Hlen;
    [|left; by apply Hsecond].
  injection Hphone as <-. right. apply Nat.ltb_lt in Hlen.
  destruct (phone_group_first _ _ Hm) as [_ Hclean].
  unfold clean_phone in *. rewrite sub_junk_identity in * by done.
  split; [done|]. split; [by apply any_char_strip|]. split; [apply strip_idempotent|].
  by exists m.
Qed.

(** ** The run as a whole *)

Lemma details_of_page_raise (soup : node) (name : string) (e : exn) :
  details_of_page soup name = Raise e → e = Exn "IndexError" "no such group".
Proof.
  unfold details_of_page. rewrite extract_phone_cases. cbv zeta.
  assert (∀ A (k : string → outcome A),
            (∀ p, k p ≠ Raise e) →
            obind match re_search (p_regex phone_pattern_2) (get_text soup) with
                  | Some _ => Raise (Exn "IndexError" "no such group")
                  | None => Val EmptyString
                  end k = Raise e → e = Exn "IndexError" "no such group") as Hsecond.
  { intros A k Hk. destruct (re_search (p_regex phone_pattern_2) (get_text soup)); simpl.
    - by intros [= <-].
    - intros H. by apply Hk in H. }
  destruct (re_search (p_regex phone_pattern_1) (get_text soup)) as [m|];
    [|by apply Hsecond].
  destruct (5 <? slen _); [done|]. by apply Hsecond.
Qed.

Lemma extract_clinic_details_raise (E : env) (url name : string) (w w' : world) (e : exn) :
  extract_clinic_details E url name w = (Raise e, w') →
  e = Exn "IndexError" "no such group".
Proof.
  destruct (get_page_content_val E url w) as (content & k & evs & Hget & _).
  rewrite (extract_clinic_details_unfold _ _ _ _ _ _ Hget).
  destruct (parse_content E content) as [soup|e']; [|done].
  destruct (details_of_page soup name) as [d|e'] eqn:Hd; [done|].
  intros [= -> _]. by apply details_of_page_raise in Hd.
Qed.

(** One turn of the loop over the clinics. *)
Lemma detail_clinics_cons (E : env) (total i : nat) (clinic : clinic_link)
    (rest : list clinic_link) (acc : tally) (w : world) :
  detail_clinics E total i (clinic :: rest) acc w =
    match extract_clinic_details E (cl_url clinic) (cl_name clinic)
            (logged [EvPrint (SayProgress i total (short_name (cl_name clinic)))] w) with
    | (Val (Some d), w1) =>
        detail_clinics E total (S i) rest
          (Tally (clinic_data acc ++ [d]) (S (successful acc)) (failed acc))
          (logged [EvPrint (SayMark true); EvSleep 300] w1)
    | (Val None, w1) =>
        detail_clinics E total (S i) rest
          (Tally (clinic_data acc) (successful acc) (S (failed acc)))
          (logged [EvPrint (SayMark false); EvSleep 300] w1)
    | (Raise e, w1) => (Raise e, w1)
    end.
Proof.
  cbn [detail_clinics]. unfold bind at 1. unfold print at 1, emit at 1. cbv beta iota.
  fold (logged [EvPrint (SayProgress i total (short_name (cl_name clinic)))] w).
  unfold bind at 1.
  destruct (extract_clinic_details _ _ _ _) as [[[d|]|e] w1]; [| |done].
  - unfold bind, print, sleep, emit, ret, logged. simpl. by rewrite <- !app_assoc.
  - unfold bind, print, sleep, emit, ret, logged. simpl. by rewrite <- !app_assoc.
Qed.

Lemma detail_clinics_raise (E : env) (total i : nat) (clinics : list clinic_link)
    (acc : tally) (w w' : world) (e : exn) :
  detail_clinics E total i clinics acc w = (Raise e, w') →
  e = Exn "IndexError" "no such group".
Proof.
  revert i acc w. induction clinics as [|clinic rest IH]; intros i acc w; [done|].
  rewrite detail_clinics_cons.
  destruct (extract_clinic_details _ _ _ _) as [[[d|]|e'] w1] eqn:Hd; [apply IH..|].
  intros [= -> _]. by apply extract_clinic_details_raise in Hd.
Qed.

Lemma save_results_val (t : tally) (w : world) : (save_results t w).1 = Val tt.
Proof. unfold save_results. by destruct (clinic_data t). Qed.

(** The only exception that ends a run is the [IndexError] of the phone
    loop: requests that fail, pages that do not parse and regions that raise
    are all caught on the way. *)
Theorem run_raises_only_index_error (E : env) (w w' : world) (e : exn) :
  scrape_all_clinics E w = (Raise e, w') → e = Exn "IndexError" "no such group".
Proof.
  destruct (list_regions_val E REGIONS []
              (logged [EvPrint (Say ("Starting clinic data scraper..." +:+ newline))] w))
    as (all_clinics & w1 & Hlist & _).
  unfold scrape_all_clinics, bind. rewrite (collect_details_unfold _ _ _ _ Hlist).
  destruct (detail_clinics _ _ _ _ _ _) as [[t|e'] w2] eqn:Hd.
  - pose proof (save_results_val t w2) as Hs.
    destruct (save_results t w2) as [r w3]. simpl in Hs. by rewrite Hs.
  - intros [= -> _]. by apply detail_clinics_raise in Hd.
Qed.

(** ** The tally *)

Lemma detail_clinics_tally (E : env) (total i : nat) (clinics : list clinic_link)
    (acc t : tally) (w w' : world) :
  detail_clinics E total i clinics acc w = (Val t, w') →
  ∃ new,
    clinic_data t = clinic_data acc ++ new
    ∧ successful t = successful acc + length new
    ∧ failed t + length new = failed acc + length clinics
    ∧ sublist (map r_name new) (map cl_name clinics).
Proof.
  revert i acc w. induction clinics as [|clinic rest IH]; intros i acc w.
  - intros [= <- _]. exists []. rewrite app_nil_r. simpl. split; [done|].
    split; [lia|]. split; [lia|constructor].
  - rewrite detail_clinics_cons.
    destruct (extract_clinic_details _ _ _ _) as [[[d|]|e'] w1] eqn:Hd; [| |done].
    + intros (new & Hdata & Hs & Hf & Hsub)%IH. simpl in *.
      apply extract_clinic_details_some in Hd as (markup & soup & _ & _ & Hd).
      apply details_of_page_val in Hd as (phone & _ & ->).
      exists (ClinicRecord (cl_name clinic)
                (apply_override (cl_name clinic)
                   (extract_address address_patterns (get_text soup)))
                (extract_email (get_text soup)) phone (extract_services soup) :: new).
      rewrite Hdata, <- app_assoc. simpl. split; [done|]. split; [lia|]. split; [lia|].
      by constructor.
    + intros (new & Hdata & Hs & Hf & Hsub)%IH. simpl in *.
      exists new. split; [done|]. split; [done|]. split; [lia|]. by constructor.
Qed.

(** When the loop over the clinics ends, the count of successes is the
    number of records, successes and failures together are the number of
    links the regions gave, and the records bear the names of links, in
    the order of the links. *)
Theorem run_tally_consistent (E : env) (w w' : world) (t : tally) :
  collect_details E w = (Val t, w') →
  ∃ all_clinics w1,
    list_regions E REGIONS []
      (logged [EvPrint (Say ("Starting clinic data scraper..." +:+ newline))] w)
      = (Val all_clinics, w1)
    ∧ successful t = length (clinic_data t)
    ∧ successful t + failed t = length all_clinics
    ∧ sublist (map r_name (clinic_data t)) (map cl_name all_clinics).
Proof.
  destruct (list_regions_val E REGIONS []
              (logged [EvPrint (Say ("Starting clinic data scraper..." +:+ newline))] w))
    as (all_clinics & w1 & Hlist & _).
  rewrite (collect_details_unfold _ _ _ _ Hlist).
  intros (new & Hdata & Hs & Hf & Hsub)%detail_clinics_tally. simpl in *.
  exists all_clinics, w1. rewrite Hdata. split; [done|]. split; [done|].
  split; [lia|done].
Qed.

(** ** The files *)

Lemma filter_opens_none (evs : list event) :
  forallb (fun ev => negb (opens_file ev)) evs = true → List.filter opens_file evs = [].
Proof.
  induction evs as [|ev evs IH]; [done|]. simpl.
  intros [Hev Hevs]%andb_true_iff. apply negb_true_iff in Hev. rewrite Hev. by apply IH.
Qed.

(** A run touches no file but the output file, and opens that one at most
    once: either the files are as they were and no file was opened, or the
    run ended normally with at least one record, the output file holds the
    header and the rows of the records, and it was opened once. *)
Theorem run_writes_only_output_file (E : env) (w : world) :
  ∃ evs,
    w_trace (scrape_all_clinics E w).2 = w_trace w ++ evs
    ∧ ((w_files (scrape_all_clinics E w).2 = w_files w
        ∧ List.filter opens_file evs = [])
       ∨ (∃ t w1,
            collect_details E w = (Val t, w1)
            ∧ clinic_data t ≠ []
            ∧ (scrape_all_clinics E w).1 = Val tt
            ∧ w_files (scrape_all_clinics E w).2
              = <[csv_file := csv_text (clinic_data t)]> (w_files w)
            ∧ List.filter opens_file evs = [EvOpenWrite csv_file])).
Proof.
  destruct (quiet_collect_details E w) as (Hf & evs & Ht & Hq).
  apply filter_opens_none in Hq.
  unfold scrape_all_clinics, bind.
  destruct (collect_details E w) as [[t|e] w1] eqn:Hrun; simpl in Hf, Ht.
  - unfold save_results. destruct (clinic_data t) as [|d data] eqn:Hdata.
    + exists (evs ++ [EvPrint (Say "No clinic data found!")]). simpl.
      rewrite Ht, <- app_assoc. split; [done|]. left. split; [done|].
      rewrite List.filter_app, Hq. done.
    + eexists. unfold bind, write_file, print, emit. simpl.
      rewrite Ht, <- !app_assoc. split; [done|]. right.
      exists t, w1. rewrite Hdata, Hf. split; [done|]. split; [done|].
      split; [done|]. split; [done|]. rewrite List.filter_app, Hq. done.
  - exists evs. simpl. split; [done|]. by left.
Qed.

(** ** More on the links of a region *)

Lemma link_of_anchor_some (link : node) (l : clinic_link) :
  link_of_anchor link = Some l →
  ∃ href slug,
    attr "href" link = Some href
    ∧ cl_name l = anchor_name link
    ∧ 2 ≤ slen (cl_name l)
    ∧ strip (cl_name l) ≠ "Our Clinics"
    ∧ contains "/our-clinics/" href = true ∧ contains "/regions/" href = false
    ∧ clinic_slug href = Some slug
    ∧ slug ≠ EmptyString ∧ any_char slash slug = false
    ∧ cl_url l = live_clinics +:+ slug +:+ "/".
Proof.
  unfold link_of_anchor. destruct (attr "href" link) as [href|]; [|done].
  destruct (_ || _) eqn:Hskip; [done|].
  apply orb_false_iff in Hskip as [_ Hlen]. apply Nat.ltb_ge in Hlen.
  destruct (String.eqb _ _) eqn:Hlabel; [done|]. apply String.eqb_neq in Hlabel.
  destruct (_ && _) eqn:Hmarks; [|done].
  apply andb_true_iff in Hmarks as [Hclinic Hregion]. apply negb_true_iff in Hregion.
  destruct (clinic_slug href) as [slug|] eqn:Hslug; [|done].
  destruct (truthy slug) eqn:Htruthy; [|done]. intros [= <-]. simpl.
  exists href, slug.
  pose proof (clinic_slug_no_slash _ _ Hslug) as Hslash.
  rewrite clinic_url_of_slug by done. repeat split; try done.
  intros ->. done.
Qed.

(** Every link a region gives comes from an anchor of the region page, as
    fetched and parsed: its name is the display name of the anchor, of at
    least two characters and not the label "Our Clinics"; the href of the
    anchor points into the clinics and not at a region; and its URL is that
    of a clinic page of the live site, for the slug of the href, which is
    not empty and has no slash. *)
Theorem region_links_well_formed (E : env) (region : string) (w w' : world)
    (links : list clinic_link) :
  extract_clinics_from_region E region w = (Val links, w') →
  Forall (fun l =>
    ∃ markup w1 soup anchor href slug,
      get_page_content E (region_url region) (logged [EvPrint (SayFetchingRegion region)] w)
        = (Val (Some markup), w1)
      ∧ html_parser E markup = Val soup
      ∧ anchor ∈ anchors soup
      ∧ attr "href" anchor = Some href
      ∧ cl_name l = anchor_name anchor
      ∧ 2 ≤ slen (cl_name l)
      ∧ strip (cl_name l) ≠ "Our Clinics"
      ∧ contains "/our-clinics/" href = true ∧ contains "/regions/" href = false
      ∧ clinic_slug href = Some slug
      ∧ slug ≠ EmptyString ∧ any_char slash slug = false
      ∧ cl_url l = "https://www.myfootdr.com.au/our-clinics/" +:+ slug +:+ "/") links.
Proof.
  intros Hrun.
  apply extract_clinics_from_region_page in Hrun
    as (content & w1 & discovered & Hget & Hpage & ->).
  apply Forall_forall. intros l Hl.
  rewrite remove_duplicates_first_seen in Hl.
  apply first_seen_elem in Hl as (pre & post & Hsplit & _).
  destruct Hpage as [(markup & soup & -> & _ & Hparse & ->)|[_ ->]];
    [|by destruct pre].
  assert (l ∈ collect_links soup) as Hin by (rewrite Hsplit; set_solver).
  apply list_elem_of_omap in Hin as (anchor & Hanchor & Hlink).
  apply link_of_anchor_some in Hlink as (href & slug & Hrest).
  by exists markup, w1, soup, anchor, href, slug.
Qed.

Lemma first_seen_urls (seen : gset string) (clinics : list clinic_link) (u : string) :
  u ∈ map cl_url (first_seen seen clinics) ↔ u ∈ map cl_url clinics ∧ u ∉ seen.
Proof.
  revert seen. induction clinics as [|c rest IH]; intros seen; simpl.
  - split; [by intros ?%elem_of_nil|]. by intros [?%elem_of_nil _].
  - destruct (decide (cl_url c ∈ seen)) as [Hc|Hc].
    + rewrite IH, elem_of_cons. split; [tauto|]. intros [[->|Hu] Hs]; [done|done].
    + simpl. rewrite !elem_of_cons, IH. split.
      * intros [->|[Hu Hs]]; [by split; [left|]|]. split; [by right|set_solver].
      * intros [[->|Hu] Hs]; [by left|].
        destruct (decide (u = cl_url c)) as [->|Hne]; [by left|].
        right. split; [done|set_solver].
Qed.

Lemma first_seen_fixed (seen : gset string) (clinics : list clinic_link) :
  NoDup (map cl_url clinics) →
  (∀ c, c ∈ clinics → cl_url c ∉ seen) →
  first_seen seen clinics = clinics.
Proof.
  revert seen. induction clinics as [|c rest IH]; intros seen Hnd Hseen; [done|].
  simpl in *. apply NoDup_cons in Hnd as [Hc Hnd].
  destruct (decide (cl_url c ∈ seen)) as [Hin|_].
  - exfalso. by apply (Hseen c); [left|].
  - f_equal. apply IH; [done|]. intros d Hd.
    assert (cl_url d ∉ seen) by (apply Hseen; by right).
    assert (cl_url d ≠ cl_url c); [|set_solver].
    intros Heq. apply Hc. rewrite <- Heq. apply list_elem_of_In, in_map.
    by apply list_elem_of_In.
Qed.

(** Removing duplicates loses no URL, changes nothing in a list without
    duplicate URLs, and so does nothing when done twice. *)
Theorem remove_duplicates_keeps_urls (clinics : list clinic_link) :
  (∀ u, u ∈ map cl_url (remove_duplicates clinics) ↔ u ∈ map cl_url clinics)
  ∧ (NoDup (map cl_url clinics) → remove_duplicates clinics = clinics)
  ∧ remove_duplicates (remove_duplicates clinics) = remove_duplicates clinics
  ∧ length (remove_duplicates clinics) ≤ length clinics.
Proof.
  rewrite !remove_duplicates_first_seen. split; [|split; [|split]].
  - intros u. rewrite first_seen_urls. set_solver.
  - intros Hnd. apply first_seen_fixed; [done|set_solver].
  - apply first_seen_fixed; [apply first_seen_NoDup|set_solver].
  - apply sublist_length, first_seen_sublist.
Qed.

Lemma lstrip_by_split (p : ascii → bool) (s : string) :
  ∃ dropped, s = dropped +:+ lstrip_by p s ∧ any_char (cls_not p) dropped = false.
Proof.
  induction s as [|c s (dropped & Hs & Hd)]; [by exists EmptyString|].
  simpl. destruct (p c) eqn:Hc.
  - exists (String c dropped). rewrite append_cons, <- Hs. split; [done|].
    simpl. unfold cls_not at 1. by rewrite Hc.
  - by exists EmptyString.
Qed.

(** [build_clinic_url] drops the slashes a path starts with, however many:
    the URL is the base, one slash, and the path from its first character
    that is not a slash. *)
Theorem build_clinic_url_leading_slashes (clinic_path : string) :
  build_clinic_url (String "/" clinic_path) = build_clinic_url clinic_path
  ∧ ∃ slashes rest,
      clinic_path = slashes +:+ rest
      ∧ any_char (cls_not slash) slashes = false
      ∧ String.prefix "/" rest = false
      ∧ build_clinic_url clinic_path = BASE_URL +:+ "/" +:+ rest.
Proof.
  split; [done|].
  destruct (lstrip_by_split slash clinic_path) as (slashes & Hsplit & Hslashes).
  exists slashes, (lstrip_by slash clinic_path). split; [done|]. split; [done|].
  split; [|done].
  destruct (lstrip_by_head slash clinic_path) as [->|(c & t & -> & Hc)]; [done|].
  by rewrite prefix_slash.
Qed.

(** ** Greedy repetition *)

Lemma span_spec (p : ascii → bool) (s : string) :
  s = (span p s).1 +:+ (span p s).2
  ∧ any_char (cls_not p) (span p s).1 = false
  ∧ starts_outside p (span p s).2 = true.
Proof.
  induction s as [|c s (Hs & Hall & Hout)]; [done|]. simpl.
  destruct (p c) eqn:Hc; simpl.
  - rewrite append_cons, <- Hs. unfold cls_not at 1. by rewrite Hc.
  - by rewrite Hc.
Qed.

Lemma span_all (p : ascii → bool) (t rest : string) :
  any_char (cls_not p) t = false → starts_outside p rest = true →
  span p (t +:+ rest) = (t, rest).
Proof.
  intros Ht Hrest. induction t as [|c t IH].
  - rewrite append_empty_l. destruct rest as [|d rest]; [done|]. simpl in *.
    by apply negb_true_iff in Hrest as ->.
  - simpl in Ht. apply orb_false_iff in Ht as [Hc Ht].
    apply negb_false_iff in Hc. rewrite append_cons. simpl. by rewrite Hc, IH.
Qed.

(** The first way a greedy repetition matches is the longest one. *)
Lemma rep_head (p : ascii → bool) (s : string) : head (rep p 0 s) = Some (span p s).
Proof.
  induction s as [|c s IH]; [done|]. simpl. destruct (p c); [|done].
  destruct (rep p 0 s) as [|x l]; [done|]. injection IH as ->. by destruct (span p s).
Qed.

Lemma rep_head_1 (p : ascii → bool) (c : ascii) (s : string) :
  p c = true →
  head (rep p 1 (String c s)) = Some (String c (span p s).1, (span p s).2).
Proof.
  intros Hc. simpl. rewrite Hc, app_nil_r. pose proof (rep_head p s) as Hs.
  destruct (rep p 0 s) as [|x l]; [done|]. by injection Hs as ->.
Qed.

Lemma sub_go_skip (r : regex) (repl : success → string) (a rest : string) :
  sub_go r repl (slen a) (a +:+ rest) = sub_go r repl 0 rest.
Proof. induction a as [|c a IH]; [done|]. rewrite append_cons. simpl. apply IH. Qed.

(** ** White space in the address *)

Lemma collapse_space (c : ascii) (s : string) :
  is_space c = true →
  re_sub whitespace_run (fun _ => " ") (String c s)
  = String " " (re_sub whitespace_run (fun _ => " ") (span is_space s).2).
Proof.
  intros Hc. unfold re_sub. cbn [sub_go]. unfold match_at, whitespace_run. cbn [run].
  pose proof (rep_head_1 is_space c s Hc) as Hhead.
  destruct (rep is_space 1 (String c s)) as [|x l]; [done|]. injection Hhead as ->.
  cbn [map head fst snd s_text slen].
  destruct (span_spec is_space s) as (Hs & _ & _).
  rewrite Hs at 2. by rewrite sub_go_skip.
Qed.

Lemma collapse_other (c : ascii) (s : string) :
  is_space c = false →
  re_sub whitespace_run (fun _ => " ") (String c s)
  = String c (re_sub whitespace_run (fun _ => " ") s).
Proof.
  intros Hc. unfold re_sub. cbn [sub_go]. unfold match_at, whitespace_run. cbn [run rep].
  by rewrite Hc.
Qed.

Lemma no_trailing_space_all (t : string) :
  any_char (cls_not is_space) t = false → t ≠ EmptyString → no_trailing_space t = false.
Proof.
  induction t as [|c t IH]; [done|]. simpl any_char.
  intros [Hc Ht]%orb_false_iff _. apply negb_false_iff in Hc.
  destruct t as [|d t]; [simpl; by rewrite Hc|].
  change (no_trailing_space (String c (String d t))) with (no_trailing_space (String d t)).
  by apply IH.
Qed.

Lemma no_trailing_space_append (a b : string) :
  b ≠ EmptyString → no_trailing_space (a +:+ b) = no_trailing_space b.
Proof.
  intros Hb. induction a as [|c a IH]; [done|]. rewrite append_cons.
  destruct (a +:+ b) as [|d t] eqn:Hab.
  - destruct a; [by destruct b|done].
  - exact IH.
Qed.

Lemma collapse_well_spaced (n : nat) (s : string) :
  slen s ≤ n → no_trailing_space s = true →
  well_spaced (re_sub whitespace_run (fun _ => " ") s) = true
  ∧ (no_leading_space s = true →
     no_leading_space (re_sub whitespace_run (fun _ => " ") s) = true).
Proof.
  revert s. induction n as [|n IH]; intros s Hlen Htrail.
  { destruct s; [done|simpl in Hlen; lia]. }
  destruct s as [|c s]; [done|]. simpl in Hlen.
  destruct (is_space c) eqn:Hc.
  - rewrite collapse_space by done.
    destruct (span_spec is_space s) as (Hs & Hall & Hout).
    destruct (span is_space s) as [a b]. cbn [fst snd] in *.
    destruct b as [|d b].
    + exfalso. rewrite Hs, append_empty_r in Htrail.
      rewrite no_trailing_space_all in Htrail; [done| |done].
      simpl. unfold cls_not at 1. by rewrite Hc.
    + assert (no_trailing_space (String d b) = true) as Hb.
      { rewrite Hs, <- append_cons, no_trailing_space_append in Htrail; done. }
      assert (slen (String d b) ≤ n) as Hlenb.
      { rewrite Hs, slen_append in Hlen. simpl in *. lia. }
      destruct (IH (String d b) Hlenb Hb) as [Hws _].
      apply negb_true_iff in Hout.
      rewrite collapse_other in * by done.
      split; [|unfold no_leading_space; simpl; by rewrite Hc].
      cbn [well_spaced] in *. rewrite Hws, Hout. done.
  - rewrite collapse_other by done.
    assert (no_trailing_space s = true) as Hs.
    { destruct s; [done|exact Htrail]. }
    destruct (IH s ltac:(lia) Hs) as [Hws _].
    split; [|unfold no_leading_space; simpl; by rewrite Hc].
    cbn [well_spaced]. by rewrite Hc, Hws.
Qed.

Lemma strip_no_trailing_space (s : string) : no_trailing_space (strip s) = true.
Proof.
  unfold strip. generalize (lstrip_by is_space s). clear s. intros s.
  induction s as [|c s IH]; [done|]. simpl rstrip_by.
  destruct (rstrip_by is_space s) as [|d r].
  - destruct (is_space c) eqn:Hc; [done|]. simpl. by rewrite Hc.
  - exact IH.
Qed.

Lemma strip_no_leading_space (s : string) : no_leading_space (strip s) = true.
Proof.
  unfold strip. destruct (lstrip_by_head is_space s) as [->|(c & t & -> & Hc)]; [done|].
  simpl rstrip_by. destruct (rstrip_by is_space t); [rewrite Hc|];
    unfold no_leading_space; simpl; by rewrite Hc.
Qed.

(** The address text taken from a page is white-space normalized: it does
    not start with white space, and every white-space character in it is a
    single space followed by a character that is not white space (so it does
    not end with white space either). *)
Theorem extracted_address_well_spaced (text_content : string) :
  well_spaced (extract_address address_patterns text_content) = true
  ∧ no_leading_space (extract_address address_patterns text_content) = true.
Proof.
  assert (∀ m, well_spaced (normalize_address m) = true
               ∧ no_leading_space (normalize_address m) = true) as Hnorm.
  { intros m. unfold normalize_address.
    destruct (collapse_well_spaced (slen (strip (group_text 1 (m_found m))))
                (strip (group_text 1 (m_found m))))
      as [Hws Hlead]; [done|apply strip_no_trailing_space|].
    split; [done|]. apply Hlead, strip_no_leading_space. }
  unfold address_patterns. cbn [extract_address].
  destruct (re_search address_regex_1 text_content) as [m|]; [apply Hnorm|].
  destruct (re_search address_regex_2 text_content) as [m|]; [apply Hnorm|done].
Qed.

(** ** First matches *)

Lemma match_at_seq (r1 r2 : regex) (s : string) (x1 x2 : success) :
  match_at r1 s = Some x1 → match_at r2 (s_rest x1) = Some x2 →
  match_at (Seq r1 r2) s
  = Some (Success (s_text x1 +:+ s_text x2) (s_groups x1 ++ s_groups x2) (s_rest x2)).
Proof.
  unfold match_at. cbn [run]. intros H1 H2.
  destruct (run r1 s) as [|y1 l1]; [done|]. injection H1 as ->. cbn [flat_map].
  destruct (run r2 (s_rest x1)) as [|y2 l2]; [done|]. by injection H2 as ->.
Qed.

Lemma match_at_char (a : ascii) (s : string) :
  match_at (Cls (is_char a)) (String a s) = Some (Success (String a EmptyString) [] s).
Proof. unfold match_at. cbn [run]. unfold is_char. by rewrite Ascii.eqb_refl. Qed.

Lemma match_at_rep_1 (p : ascii → bool) (t rest : string) :
  t ≠ EmptyString → any_char (cls_not p) t = false → starts_outside p rest = true →
  match_at (Rep p 1) (t +:+ rest) = Some (Success t [] rest).
Proof.
  intros Hne Ht Hrest. destruct t as [|c t]; [done|]. simpl in Ht.
  apply orb_false_iff in Ht as [Hc Ht]. apply negb_false_iff in Hc.
  unfold match_at. cbn [run]. rewrite append_cons.
  pose proof (rep_head_1 p c (t +:+ rest) Hc) as Hhead.
  rewrite span_all in Hhead by done.
  destruct (rep p 1 (String c (t +:+ rest))) as [|x l]; [done|]. by injection Hhead as ->.
Qed.

Lemma match_at_grp (i : nat) (r : regex) (s : string) (x : success) :
  match_at r s = Some x →
  match_at (Grp i r) s = Some (Success (s_text x) ((i, s_text x) :: s_groups x) (s_rest x)).
Proof.
  unfold match_at. cbn [run]. intros H. destruct (run r s) as [|y l]; [done|].
  by injection H as ->.
Qed.

(** ** Service cards *)

(** The markdown link pattern takes a whole link, its group the label. *)
Lemma markdown_link_match (label url rest : string) :
  label ≠ EmptyString → url ≠ EmptyString →
  any_char (is_char "]") label = false → any_char (is_char ")") url = false →
  match_at markdown_link ("[" +:+ label +:+ "](" +:+ url +:+ ")" +:+ rest)
  = Some (Success ("[" +:+ label +:+ "](" +:+ url +:+ ")") [(1, label)] rest).
Proof.
  intros Hlabel Hurl Hl Hu.
  assert (∀ a s, any_char (is_char a) s = false
                 → any_char (cls_not (cls_not (is_char a))) s = false) as Hnn.
  { intros a s <-. apply any_char_ext. intros c. unfold cls_not. apply negb_involutive. }
  change markdown_link with
    (Seq (Cls (is_char "["))
       (Seq (Grp 1 (Rep (cls_not (is_char "]")) 1))
          (Seq (Cls (is_char "]"))
             (Seq (Cls (is_char "("))
                (Seq (Rep (cls_not (is_char ")")) 1) (Cls (is_char ")"))))))).
  change ("[" +:+ label +:+ "](" +:+ url +:+ ")" +:+ rest)
    with (String "[" (label +:+ String "]" (String "(" (url +:+ String ")" rest)))).
  pose proof (match_at_char ")" rest) as H6.
  pose proof (match_at_rep_1 (cls_not (is_char ")")) url (String ")" rest) Hurl
                (Hnn _ _ Hu) eq_refl) as H5.
  pose proof (match_at_seq _ _ _ _ _ H5 H6) as H56.
  pose proof (match_at_seq _ _ _ _ _ (match_at_char "(" (url +:+ String ")" rest)) H56)
    as H456.
  pose proof (match_at_seq _ _ _ _ _
                (match_at_char "]" (String "(" (url +:+ String ")" rest))) H456) as H3456.
  pose proof (match_at_grp 1 _ _ _
                (match_at_rep_1 (cls_not (is_char "]")) label
                   (String "]" (String "(" (url +:+ String ")" rest))) Hlabel
                   (Hnn _ _ Hl) eq_refl)) as H2.
  pose proof (match_at_seq _ _ _ _ _ H2 H3456) as H23456.
  rewrite (match_at_seq _ _ _ _ _ (match_at_char "[" _) H23456).
  reflexivity.
Qed.

(** A card whose heading is a markdown link gives the label of the link. *)
Theorem service_of_markdown_link (card h3 : node) (label url : string) :
  find_first ["h3"] card = Some h3 →
  get_text_strip h3 = "[" +:+ label +:+ "](" +:+ url +:+ ")" →
  any_char (is_char "]") label = false →
  any_char (is_char ")") url = false →
  url ≠ EmptyString →
  2 < slen label →
  service_of_article card = [label].
Proof.
  intros Hh3 Htext Hl Hu Hurl Hlen.
  assert (label ≠ EmptyString) as Hlabel by (intros ->; simpl in Hlen; lia).
  unfold service_of_article. rewrite Hh3, Htext.
  assert (re_sub markdown_link (group_text 1) ("[" +:+ label +:+ "](" +:+ url +:+ ")")
          = label) as ->.
  { pose proof (markdown_link_match label url EmptyString Hlabel Hurl Hl Hu) as Hm.
    change ("[" +:+ label +:+ "](" +:+ url +:+ ")" +:+ "")
      with ("[" +:+ label +:+ "](" +:+ url +:+ ")") in Hm.
    unfold re_sub.
    change ("[" +:+ label +:+ "](" +:+ url +:+ ")")
      with (String "[" (label +:+ "](" +:+ url +:+ ")")) in *.
    cbn [sub_go]. rewrite Hm. cbn [s_text slen].
    pose proof (sub_go_skip markdown_link (group_text 1)
                  (label +:+ "](" +:+ url +:+ ")") EmptyString) as Hskip.
    rewrite append_empty_r in Hskip. rewrite Hskip.
    unfold group_text. simpl. apply append_empty_r. }
  assert (truthy label = true) as -> by by destruct label.
  by apply Nat.ltb_lt in Hlen as ->.
Qed.

(** ** The email address *)

Lemma run_text (r : regex) (s : string) (x : success) :
  In x (run r s) → s = s_text x +:+ s_rest x.
Proof.
  revert s x. induction r as [|p|r1 IH1 r2 IH2|r1 IH1 r2 IH2|p lo|i r IH]; intros s x Hin.
  - by destruct Hin as [<-|[]].
  - simpl in Hin. destruct s as [|c s]; [done|]. destruct (p c); [|done].
    by destruct Hin as [<-|[]].
  - apply in_run_seq in Hin as (x1 & x2 & H1 & H2 & ->). simpl.
    rewrite append_assoc, <- (IH2 _ _ H2). by apply IH1.
  - simpl in Hin. apply in_app_iff in Hin as [Hin|Hin]; [by apply IH1|by apply IH2].
  - simpl in Hin. apply in_map_iff in Hin as ([m t] & <- & Hin).
    by apply rep_sound in Hin as (-> & _).
  - simpl in Hin. apply in_map_iff in Hin as (y & <- & Hin). simpl. by apply IH.
Qed.

Lemma in_run_rep (p : ascii → bool) (lo : nat) (s : string) (x : success) :
  In x (run (Rep p lo) s) →
  any_char (cls_not p) (s_text x) = false ∧ lo ≤ slen (s_text x).
Proof.
  simpl. intros ([m t] & <- & Hin)%in_map_iff. by apply rep_sound in Hin as (_ & ? & ?).
Qed.

Lemma in_run_char (a : ascii) (s : string) (x : success) :
  In x (run (Cls (is_char a)) s) → s_text x = String a EmptyString.
Proof.
  simpl. destruct s as [|c s]; [done|]. unfold is_char.
  destruct (Ascii.eqb_spec a c) as [->|]; [|done]. by intros [<-|[]].
Qed.

Lemma contains_prefix (needle hay : string) :
  String.prefix needle hay = true → contains needle hay = true.
Proof. intros H. destruct hay; cbn [contains]; by rewrite H. Qed.

Lemma contains_middle (pre needle rest : string) :
  contains needle (pre +:+ needle +:+ rest) = true.
Proof.
  induction pre as [|c pre IH].
  - rewrite append_empty_l. apply contains_prefix, prefix_append.
  - rewrite append_cons. cbn [contains]. rewrite IH. apply orb_true_r.
Qed.

(** What a search finds is in the text, at the position it reports. *)
Lemma search_from_text (r : regex) (pos : nat) (s : string) (m : match_obj) :
  search_from r pos s = Some m →
  ∃ pre, s = pre +:+ s_text (m_found m) +:+ s_rest (m_found m)
         ∧ m_start m = pos + slen pre.
Proof.
  revert pos. induction s as [|c s IH]; intros pos; simpl.
  - destruct (match_at r EmptyString) as [x|] eqn:Hx; [|done]. intros [= <-].
    exists EmptyString.
    split; [rewrite append_empty_l; apply (run_text r), head_In, Hx|simpl; lia].
  - destruct (match_at r (String c s)) as [x|] eqn:Hx.
    + intros [= <-]. exists EmptyString.
      split; [rewrite append_empty_l; apply (run_text r), head_In, Hx|simpl; lia].
    + intros (pre & -> & Hstart)%IH. exists (String c pre). split; [done|].
      simpl. lia.
Qed.

(** The Email of a page is empty or has the shape local@domain.tld, each
    part non-empty, the local part and the domain made of word characters,
    dots and hyphens, the last part of word characters; and it is a piece of
    the text of the page. *)
Theorem email_shape (text_content : string) :
  extract_email text_content = EmptyString
  ∨ ∃ loc domain tld,
      extract_email text_content = loc +:+ "@" +:+ domain +:+ "." +:+ tld
      ∧ loc ≠ EmptyString ∧ domain ≠ EmptyString ∧ tld ≠ EmptyString
      ∧ any_char (cls_not email_chars) loc = false
      ∧ any_char (cls_not email_chars) domain = false
      ∧ any_char (cls_not is_word) tld = false
      ∧ contains (extract_email text_content) text_content = true.
Proof.
  unfold extract_email.
  destruct (re_search email_regex text_content) as [m|] eqn:Hm; [|by left]. right.
  destruct (search_from_text _ _ _ _ Hm) as (pre & Htext & _).
  assert (contains (s_text (m_found m)) text_content = true) as Hcontains.
  { rewrite Htext. apply contains_middle. }
  clear Htext.
  apply search_from_found in Hm as (_ & t & Ht). apply head_In in Ht.
  change email_regex with
    (Seq (Rep email_chars 1)
       (Seq (Cls (is_char "@"))
          (Seq (Rep email_chars 1) (Seq (Cls (is_char ".")) (Rep is_word 1))))) in Ht.
  apply in_run_seq in Ht as (x1 & y1 & H1 & Ht & Hx).
  apply in_run_seq in Ht as (x2 & y2 & H2 & Ht & ->).
  apply in_run_seq in Ht as (x3 & y3 & H3 & Ht & ->).
  apply in_run_seq in Ht as (x4 & x5 & H4 & H5 & ->).
  apply in_run_rep in H1 as [Hc1 Hl1]. apply in_run_char in H2.
  apply in_run_rep in H3 as [Hc3 Hl3]. apply in_run_char in H4.
  apply in_run_rep in H5 as [Hc5 Hl5].
  cbn [s_text] in Hx. rewrite H2, H4 in Hx.
  exists (s_text x1), (s_text x3), (s_text x5).
  split; [by rewrite Hx|].
  split; [intros Heq; rewrite Heq in Hl1; simpl in Hl1; lia|].
  split; [intros Heq; rewrite Heq in Hl3; simpl in Hl3; lia|].
  split; [intros Heq; rewrite Heq in Hl5; simpl in Hl5; lia|].
  done.
Qed.

(** ** Instances *)

(** Three failing attempts: the URL is requested three times, one second
    apart, the error is reported and [None] is returned. *)
Lemma fetcher_three_paced_attempts_offline :
  ∃ err,
    get_page_content offline noosa_url initial_world
    = (Val None,
       after [EvGet noosa_url; EvSleep 1000; EvGet noosa_url; EvSleep 1000;
              EvGet noosa_url; EvPrint (SayErrorFetchingUrl noosa_url err)] 3 initial_world).
Proof.
  destruct (fetcher_three_paced_attempts offline noosa_url initial_world)
    as (result & k & report & Heq & _ & Hreport & _ & _ & Hnone).
  destruct Hnone as [-> ->].
  { intros i _. eexists. by vm_compute. }
  destruct Hreport as [->|[err ->]].
  - by vm_compute in Heq.
  - by exists err.
Defined.


(** The page of Allsports Podiatry Noosa gives a street address; the record
    has the address of the override table. *)
Lemma override_replaces_address_allsports :
  extract_clinic_details (site_env allsports_site) allsports_url
    "Allsports Podiatry Noosa" initial_world
  = (Val (Some (ClinicRecord "Allsports Podiatry Noosa"
                  ("Unit 4, 17 Sunshine Beach Rd" +:+ newline +:+ "Noosa QLD 4567")
                  EmptyString "(07) 5555 1234" EmptyString)),
     after [EvGet allsports_url] 1 initial_world)
  ∧ extract_address address_patterns (get_text allsports_page)
    = "17 Sunshine Beach Rd Noosa QLD 4567"
  ∧ ∃ markup soup,
      get_page_content (site_env allsports_site) allsports_url initial_world
      = (Val (Some markup), after [EvGet allsports_url] 1 initial_world)
      ∧ html_parser (site_env allsports_site) markup = Val soup
      ∧ (∀ override,
           ADDRESS_OVERRIDES !! "Allsports Podiatry Noosa" = Some override →
           "Unit 4, 17 Sunshine Beach Rd" +:+ newline +:+ "Noosa QLD 4567" = override).
Proof.
  split; [by vm_compute|]. split; [by vm_compute|].
  destruct (override_replaces_address (site_env allsports_site) allsports_url
              "Allsports Podiatry Noosa" initial_world
              (after [EvGet allsports_url] 1 initial_world)
              (ClinicRecord "Allsports Podiatry Noosa"
                 ("Unit 4, 17 Sunshine Beach Rd" +:+ newline +:+ "Noosa QLD 4567")
                 EmptyString "(07) 5555 1234" EmptyString))
    as (markup & soup & Hget & Hparse & _ & Hov & _); [by vm_compute|].
  exists markup, soup. done.
Defined.

(** A directory page that links the Noosa clinic twice: the second link is
    dropped, the order of the others is kept. *)
Lemma region_links_unique_first_seen_directory :
  extract_clinics_from_region (site_env directory_site) "sunshine-coast" initial_world
  = (Val [ClinicLink "Noosa Clinic" noosa_url;
          ClinicLink "Brisbane CBD" "https://www.myfootdr.com.au/our-clinics/brisbane-cbd/"],
     after [EvPrint (SayFetchingRegion "sunshine-coast");
            EvGet (region_url "sunshine-coast"); EvPrint (SayFound 2)] 1 initial_world)
  ∧ collect_links directory_page
    = [ClinicLink "Noosa Clinic" noosa_url;
       ClinicLink "Brisbane CBD" "https://www.myfootdr.com.au/our-clinics/brisbane-cbd/";
       ClinicLink "Noosa on the map" noosa_url]
  ∧ ∃ content w1 discovered,
      get_page_content (site_env directory_site) (region_url "sunshine-coast")
        (logged [EvPrint (SayFetchingRegion "sunshine-coast")] initial_world)
        = (Val content, w1)
      ∧ ((∃ markup soup,
            content = Some markup ∧ markup ≠ EmptyString
            ∧ html_parser (site_env directory_site) markup = Val soup
            ∧ discovered = collect_links soup)
         ∨ ((content = None ∨ content = Some EmptyString) ∧ discovered = []))
      ∧ NoDup [noosa_url; "https://www.myfootdr.com.au/our-clinics/brisbane-cbd/"]
      ∧ sublist [ClinicLink "Noosa Clinic" noosa_url;
                 ClinicLink "Brisbane CBD"
                   "https://www.myfootdr.com.au/our-clinics/brisbane-cbd/"] discovered
      ∧ (∀ c, c ∈ [ClinicLink "Noosa Clinic" noosa_url;
                   ClinicLink "Brisbane CBD"
                     "https://www.myfootdr.com.au/our-clinics/brisbane-cbd/"] ↔
              ∃ pre post, discovered = pre ++ c :: post ∧ cl_url c ∉ map cl_url pre)
      ∧ (∀ pre c mid d post,
           discovered = pre ++ c :: mid ++ d :: post →
           cl_url c ∉ map cl_url pre →
           cl_url d ∉ map cl_url (pre ++ c :: mid) →
           ∃ l1 l2 l3,
             [ClinicLink "Noosa Clinic" noosa_url;
              ClinicLink "Brisbane CBD"
                "https://www.myfootdr.com.au/our-clinics/brisbane-cbd/"]
             = l1 ++ c :: l2 ++ d :: l3).
Proof.
  split; [by vm_compute|]. split; [by vm_compute|].
  apply (region_links_unique_first_seen (site_env directory_site) "sunshine-coast"
           initial_world
           (after [EvPrint (SayFetchingRegion "sunshine-coast");
                   EvGet (region_url "sunshine-coast"); EvPrint (SayFound 2)] 1
                  initial_world)
           [ClinicLink "Noosa Clinic" noosa_url;
            ClinicLink "Brisbane CBD"
              "https://www.myfootdr.com.au/our-clinics/brisbane-cbd/"]).
  by vm_compute.
Defined.

(** A page with a welcome heading, the services heading, two cards among
    other siblings, and a further section after the next level-2 heading. *)
Lemma services_of_two_cards_page :
  details_of_page services_page "Noosa Clinic"
  = Val (ClinicRecord "Noosa Clinic" EmptyString EmptyString EmptyString
           "Podiatry, Orthotics")
  ∧ r_services (ClinicRecord "Noosa Clinic" EmptyString EmptyString EmptyString
                  "Podiatry, Orthotics") = "Podiatry, Orthotics".
Proof.
  split; [by vm_compute|].
  apply (services_of_two_cards services_page "Noosa Clinic"
           (ClinicRecord "Noosa Clinic" EmptyString EmptyString EmptyString
              "Podiatry, Orthotics")
           (take 1 (find_all ["h2"; "h3"] services_page))
           (drop 2 (find_all ["h2"; "h3"] services_page))
           services_title
           [Text newline] [Elem "div" ∅ []] [Text newline] after_services
           card_podiatry card_orthotics
           (Elem "h3" ∅ [Text "Podiatry"]) (Elem "h3" ∅ [Text " Orthotics "])).
  - by vm_compute.
  - by repeat constructor.
  - by vm_compute.
  - by repeat constructor.
  - by repeat constructor.
  - by repeat constructor.
  - right. by eexists _, _, _.
  - done.
  - by vm_compute.
  - by vm_compute.
  - done.
  - by vm_compute.
  - by vm_compute.
  - by vm_compute.
Defined.

(** A page whose text is "Visit us: 123 Main St Noosa QLD 4567. Call (07)
    5555 1234". *)
Lemma address_of_delimited_match_page :
  details_of_page address_page "Noosa Clinic"
  = Val (ClinicRecord "Noosa Clinic" "123 Main St Noosa QLD 4567" EmptyString
           "(07) 5555 1234" EmptyString)
  ∧ r_address (ClinicRecord "Noosa Clinic" "123 Main St Noosa QLD 4567" EmptyString
                 "(07) 5555 1234" EmptyString) = "123 Main St Noosa QLD 4567".
Proof.
  split; [by vm_compute|].
  apply (address_of_delimited_match address_page "Noosa Clinic"
           (ClinicRecord "Noosa Clinic" "123 Main St Noosa QLD 4567" EmptyString
              "(07) 5555 1234" EmptyString)
           "Visit us: " ". Call (07) 5555 1234").
  - by vm_compute.
  - by vm_compute.
  - intros m Hm. vm_compute in Hm. injection Hm as <-. simpl. lia.
  - right. eexists _, _. split; [done|]. by vm_compute.
  - by vm_compute.
  - by vm_compute.
Defined.

(** With every request failing no record is collected: the run ends with
    the notice and the files are as they were. *)
Lemma no_records_no_file_offline :
  ∃ n evs,
    scrape_all_clinics offline initial_world
    = (Val tt, World n (evs ++ [EvPrint (Say "No clinic data found!")]) ∅)
    ∧ forallb (fun ev => negb (opens_file ev)) evs = true.
Proof.
  destruct (no_records_no_file offline initial_world) as [Hsave Hnone].
  destruct (Hnone (list_regions offline REGIONS []
                     (after [EvPrint (Say ("Starting clinic data scraper..." +:+ newline))]
                            0 initial_world)).2)
    as (t & w2 & Hrun & Hempty); [by vm_compute|].
  destruct (Hsave t w2 Hrun Hempty) as (evs & Heq & Hquiet).
  exists (w_requests w2), evs. split; [exact Heq|exact Hquiet].
Defined.

(** The output for the two sample records: the fields with a comma, a line
    break or a quote are quoted and the quotes doubled, and the rows that are
    read back are the fields of the records. *)
Lemma output_file_round_trip_sample :
  csv_text sample_records
  = "Name of Clinic,Address,Email,Phone,Services" +:+ crlf
    +:+ "Noosa Clinic," +:+ String dquote ("Unit 4, 17 Sunshine Beach Rd" +:+ newline
    +:+ "Noosa QLD 4567" +:+ String dquote (",noosa@myfootdr.com.au,(07) 5555 1234,"
    +:+ String dquote ("Podiatry, Orthotics" +:+ String dquote (crlf
    +:+ String dquote ("The " +:+ String dquote (String dquote ("Foot"
    +:+ String dquote (String dquote (" Clinic" +:+ String dquote (",,,07 5555 9999,Podiatry"
    +:+ crlf))))))))))
  ∧ csv_read (csv_text sample_records)
    = Val [["Name of Clinic"; "Address"; "Email"; "Phone"; "Services"];
           ["Noosa Clinic";
            "Unit 4, 17 Sunshine Beach Rd" +:+ newline +:+ "Noosa QLD 4567";
            "noosa@myfootdr.com.au"; "(07) 5555 1234"; "Podiatry, Orthotics"];
           [quoted_foot; EmptyString; EmptyString; "07 5555 9999"; "Podiatry"]]
  ∧ w_files (save_results (Tally sample_records 2 0) initial_world).2 !! csv_file
    = Some (csv_text sample_records).
Proof.
  destruct (output_file_round_trip sample_records) as (_ & (rows & Hread & _ & -> & _) & Hfile).
  split; [by vm_compute|]. split; [exact Hread|]. by apply Hfile.
Defined.

(** With no URL answering, the third "404" message is what is reported. *)
Lemma fetcher_reports_last_error_offline :
  get_page_content offline noosa_url initial_world
  = (Val None,
     after [EvGet noosa_url; EvSleep 1000; EvGet noosa_url; EvSleep 1000;
            EvGet noosa_url;
            EvPrint (SayErrorFetchingUrl noosa_url
                       "404 Client Error: Not Found for url: https://www.m")] 3
           initial_world)
  ∧ slen "404 Client Error: Not Found for url: https://www.m" ≤ 50.
Proof.
  apply (fetcher_reports_last_error offline noosa_url initial_world
           (Exn "HTTPError" ("404 Client Error: Not Found for url: " +:+ noosa_url))
           (Exn "HTTPError" ("404 Client Error: Not Found for url: " +:+ noosa_url))
           (Exn "HTTPError" ("404 Client Error: Not Found for url: " +:+ noosa_url)));
    reflexivity.
Defined.

(** With no URL answering, a region gives no link. *)
Lemma region_lister_failed_fetch_offline :
  ∃ err,
    extract_clinics_from_region offline "brisbane" initial_world
    = (Val [],
       after [EvPrint (SayFetchingRegion "brisbane");
              EvGet (region_url "brisbane"); EvSleep 1000;
              EvGet (region_url "brisbane"); EvSleep 1000;
              EvGet (region_url "brisbane");
              EvPrint (SayErrorFetchingUrl (region_url "brisbane") err);
              EvPrint (Say "  Failed to fetch region page")] 3 initial_world).
Proof.
  destruct (region_lister_failed_fetch offline "brisbane" initial_world) as [Hfail _].
  apply Hfail. intros i _. eexists. reflexivity.
Defined.

(** The links of the directory page. *)
Lemma region_links_well_formed_directory :
  Forall (fun l =>
    ∃ markup w1 soup anchor href slug,
      get_page_content (site_env directory_site) (region_url "sunshine-coast")
        (logged [EvPrint (SayFetchingRegion "sunshine-coast")] initial_world)
        = (Val (Some markup), w1)
      ∧ html_parser (site_env directory_site) markup = Val soup
      ∧ anchor ∈ anchors soup
      ∧ attr "href" anchor = Some href
      ∧ cl_name l = anchor_name anchor
      ∧ 2 ≤ slen (cl_name l)
      ∧ strip (cl_name l) ≠ "Our Clinics"
      ∧ contains "/our-clinics/" href = true ∧ contains "/regions/" href = false
      ∧ clinic_slug href = Some slug
      ∧ slug ≠ EmptyString ∧ any_char slash slug = false
      ∧ cl_url l = "https://www.myfootdr.com.au/our-clinics/" +:+ slug +:+ "/")
    [ClinicLink "Noosa Clinic" noosa_url;
     ClinicLink "Brisbane CBD" "https://www.myfootdr.com.au/our-clinics/brisbane-cbd/"].
Proof.
  apply (region_links_well_formed (site_env directory_site) "sunshine-coast"
           initial_world
           (after [EvPrint (SayFetchingRegion "sunshine-coast");
                   EvGet (region_url "sunshine-coast"); EvPrint (SayFound 2)] 1
                  initial_world)).
  vm_compute. reflexivity.
Defined.

(** The page that says "Call (07) 5555 1234". *)
Lemma phone_field_shape_page :
  5 < slen "(07) 5555 1234"
  ∧ any_char (cls_not phone_chars) "(07) 5555 1234" = false
  ∧ strip "(07) 5555 1234" = "(07) 5555 1234"
  ∧ ∃ m, re_search (p_regex phone_pattern_1) (get_text address_page) = Some m
         ∧ "(07) 5555 1234" = strip (group_text 1 (m_found m)).
Proof.
  destruct (phone_field_shape address_page "Noosa Clinic"
              (ClinicRecord "Noosa Clinic" "123 Main St Noosa QLD 4567" EmptyString
                 "(07) 5555 1234" EmptyString)) as [Hempty|Hshape].
  - vm_compute. reflexivity.
  - discriminate Hempty.
  - exact Hshape.
Defined.

(** A card headed "[Podiatry](/services/podiatry/)". *)
Lemma service_of_markdown_link_card :
  service_of_article card_linked = ["Podiatry"].
Proof.
  apply (service_of_markdown_link card_linked
           (Elem "h3" ∅ [Text "[Podiatry](/services/podiatry/)"])
           "Podiatry" "/services/podiatry/").
  - vm_compute. reflexivity.
  - vm_compute. reflexivity.
  - reflexivity.
  - reflexivity.
  - discriminate.
  - simpl. lia.
Defined.

(** The run over the site whose clinic page gives its phone number without
    the word Call. *)
Lemma run_raises_only_index_error_landline :
  ∃ e w,
    scrape_all_clinics (site_env landline_site) initial_world = (Raise e, w)
    ∧ e = Exn "IndexError" "no such group".
Proof.
  exists (Exn "IndexError" "no such group"),
         (scrape_all_clinics (site_env landline_site) initial_world).2.
  assert (scrape_all_clinics (site_env landline_site) initial_world
          = (Raise (Exn "IndexError" "no such group"),
             (scrape_all_clinics (site_env landline_site) initial_world).2)) as Hrun.
  { vm_compute. reflexivity. }
  split; [exact Hrun|].
  exact (run_raises_only_index_error (site_env landline_site) initial_world _ _ Hrun).
Defined.

(** The run over a site with one region page, one link and one clinic
    page: one record, one success, no failure. *)
Lemma run_tally_consistent_noosa :
  ∃ t w all_clinics w1,
    collect_details (site_env noosa_site) initial_world = (Val t, w)
    ∧ clinic_data t
      = [ClinicRecord "Noosa Clinic" "123 Main St Noosa QLD 4567" EmptyString
           "(07) 5555 1234" EmptyString]
    ∧ list_regions (site_env noosa_site) REGIONS []
        (logged [EvPrint (Say ("Starting clinic data scraper..." +:+ newline))]
                initial_world)
      = (Val all_clinics, w1)
    ∧ successful t = length (clinic_data t)
    ∧ successful t + failed t = length all_clinics
    ∧ sublist (map r_name (clinic_data t)) (map cl_name all_clinics).
Proof.
  exists (Tally [ClinicRecord "Noosa Clinic" "123 Main St Noosa QLD 4567" EmptyString
                   "(07) 5555 1234" EmptyString] 1 0),
         (collect_details (site_env noosa_site) initial_world).2.
  assert (collect_details (site_env noosa_site) initial_world
          = (Val (Tally [ClinicRecord "Noosa Clinic" "123 Main St Noosa QLD 4567"
                           EmptyString "(07) 5555 1234" EmptyString] 1 0),
             (collect_details (site_env noosa_site) initial_world).2)) as Hrun.
  { vm_compute. reflexivity. }
  destruct (run_tally_consistent (site_env noosa_site) initial_world _ _ Hrun)
    as (all_clinics & w1 & Hlist & Hs & Hf & Hsub).
  exists all_clinics, w1. split; [exact Hrun|]. split; [reflexivity|].
  split; [exact Hlist|]. split; [exact Hs|]. split; [exact Hf|exact Hsub].
Defined.
